(** * merchantCache: the ABN resolution engine and the API server's cache

    A shallow embedding of [internal/abr/client.go] (candidate extraction,
    ranking, the two-stage lookup) and of [internal/server/server.go] (the
    request handler with its result cache), with the properties of the
    specification stated and proved over it.

    Conventions.
    - A Go [string] is a byte string: Rocq's [string].  The Unicode-aware
      functions of package [strings] ([TrimSpace], [ToLower], [Fields]) are
      embedded twice.  Module [Strings] gives their action on ASCII text,
      where a byte above 127 is neither a space nor a letter.  Modules
      [abrU], [serverU] and [SpecU] take the three as variables, and the
      properties that depend on which characters are spaces or letters are
      proved over these, assuming of Go's library at most that trimming is
      idempotent and that the empty string is lower-cased to itself.
    - [encoding/csv] is not embedded: a file is the list of records that
      [csv.Reader.ReadAll] returns, and a property of a file read back says
      so in a hypothesis.
    - A Go [float64] is Rocq's primitive binary64 [float]; [+], [*] and [<]
      are the IEEE operations.
    - A Go [map[string]bool] used as a set is a [gset string]; a
      [map[string]V] is a [gmap string V].
    - The network ([http.Client.Get]), [xml.Unmarshal] and [fmt.Sscanf] are
      not code of this repository: they are variables of the sections below,
      so every theorem holds for each behaviour they may have.
    - Progress messages printed with [fmt.Printf] are left out.
    - [client.go] holds two versions of the client; they share
      [getAllResults] and [findBestResult] and differ in [Lookup], embedded
      as [Lookup] (search, rank, verify) and [Lookup_v2] (first result). *)

From Stdlib Require Import String Ascii List ZArith Bool Lia.
From Stdlib Require Import Floats Uint63.
From stdpp Require Import gmap strings list.
Import ListNotations.

Local Open Scope string_scope.
Local Open Scope list_scope.

(** ** Package [strings] *)

Module Strings.

(** [unicode.IsSpace] on a byte: tab, newline, vertical tab, form feed,
    carriage return, space. *)
Definition isSpace (c : ascii) : bool :=
  let n := nat_of_ascii c in
  ((9 <=? n)%nat && (n <=? 13)%nat) || (n =? 32)%nat.

Definition isUpper (c : ascii) : bool :=
  let n := nat_of_ascii c in
  (65 <=? n)%nat && (n <=? 90)%nat.

(** [unicode.ToLower] on a byte: ['A'..'Z'] move by 32, all else is kept. *)
Definition toLower (c : ascii) : ascii :=
  if isUpper c then ascii_of_nat (nat_of_ascii c + 32) else c.

(** [strings.ToLower]. *)
Fixpoint ToLower (s : string) : string :=
  match s with
  | EmptyString => EmptyString
  | String c s' => String (toLower c) (ToLower s')
  end.

(** [strings.TrimLeftFunc(s, unicode.IsSpace)]. *)
Fixpoint trimLeft (s : string) : string :=
  match s with
  | EmptyString => EmptyString
  | String c s' => if isSpace c then trimLeft s' else s
  end.

(** [strings.TrimRightFunc(s, unicode.IsSpace)]. *)
Fixpoint trimRight (s : string) : string :=
  match s with
  | EmptyString => EmptyString
  | String c s' =>
      match trimRight s' with
      | EmptyString => if isSpace c then EmptyString else String c EmptyString
      | t => String c t
      end
  end.

(** [strings.TrimSpace]. *)
Definition TrimSpace (s : string) : string := trimRight (trimLeft s).

(** The scanning loop of [strings.Fields]: [word] is the field being read. *)
Fixpoint fieldsFrom (s word : string) : list string :=
  match s with
  | EmptyString => if decide (word = "") then [] else [word]
  | String c s' =>
      if isSpace c
      then (if decide (word = "") then fieldsFrom s' ""
            else word :: fieldsFrom s' "")
      else fieldsFrom s' (word ++ String c "")
  end.

(** [strings.Fields]. *)
Definition Fields (s : string) : list string := fieldsFrom s "".

(** [strings.HasPrefix]. *)
Fixpoint HasPrefix (s prefix : string) : bool :=
  match prefix, s with
  | EmptyString, _ => true
  | String _ _, EmptyString => false
  | String p prefix', String c s' =>
      if decide (p = c) then HasPrefix s' prefix' else false
  end.

(** [strings.Contains]: [substr] occurs in [s] at some offset. *)
Fixpoint Contains (s substr : string) : bool :=
  HasPrefix s substr ||
  match s with
  | EmptyString => false
  | String _ s' => Contains s' substr
  end.

(** The slice [s[n:]]. *)
Fixpoint sliceFrom (n : nat) (s : string) : string :=
  match n, s with
  | O, _ => s
  | S _, EmptyString => EmptyString
  | S n', String _ s' => sliceFrom n' s'
  end.

(** [strings.TrimPrefix]. *)
Definition TrimPrefix (s prefix : string) : string :=
  if HasPrefix s prefix then sliceFrom (String.length prefix) s else s.

(** Membership of a byte in a cutset. *)
Fixpoint inCutset (c : ascii) (cutset : string) : bool :=
  match cutset with
  | EmptyString => false
  | String d cutset' => if decide (c = d) then true else inCutset c cutset'
  end.

Fixpoint trimLeftCut (s cutset : string) : string :=
  match s with
  | EmptyString => EmptyString
  | String c s' => if inCutset c cutset then trimLeftCut s' cutset else s
  end.

Fixpoint trimRightCut (s cutset : string) : string :=
  match s with
  | EmptyString => EmptyString
  | String c s' =>
      match trimRightCut s' cutset with
      | EmptyString => if inCutset c cutset then EmptyString else String c EmptyString
      | t => String c t
      end
  end.

(** [strings.Trim]. *)
Definition Trim (s cutset : string) : string :=
  trimRightCut (trimLeftCut s cutset) cutset.

End Strings.

(** ** Package [regexp], as far as [abnRegex] needs it *)

Module Regexp.

(** [\d]: an ASCII digit. *)
Definition isDigit (c : ascii) : bool :=
  let n := nat_of_ascii c in
  (48 <=? n)%nat && (n <=? 57)%nat.

(** Expressions built from [\d] and the counted repetition [r{n}]. *)
Inductive regexp : Type :=
| ReDigit
| ReRepeat (r : regexp) (n : nat).

Fixpoint times {A : Type} (n : nat) (f : A -> option A) (a : A) : option A :=
  match n with
  | O => Some a
  | S n' => match f a with Some a' => times n' f a' | None => None end
  end.

(** [consume r s]: [r] matched at the start of [s], and what is left of [s]. *)
Fixpoint consume (r : regexp) (s : string) : option string :=
  match r with
  | ReDigit =>
      match s with
      | String c s' => if isDigit c then Some s' else None
      | EmptyString => None
      end
  | ReRepeat r' n => times n (consume r') s
  end.

(** [regexp.MustCompile("^" + r + "$").MatchString(s)]: without the
    multi-line flag [^] and [$] are the two ends of the text. *)
Definition MatchString (r : regexp) (s : string) : bool :=
  match consume r s with
  | Some EmptyString => true
  | _ => false
  end.

Fixpoint allDigits (s : string) : bool :=
  match s with
  | EmptyString => true
  | String c s' => isDigit c && allDigits s'
  end.

End Regexp.

(** ** Package [abr]: [internal/abr/client.go] *)

Module abr.

(** [SearchResultsRecord], the nested XML structs flattened. *)
Record SearchResultsRecord : Type := {
  IdentifierValue : string;
  IdentifierStatus : string;
  StateCode : string;
  BusinessName_OrganisationName : string;
  BusinessName_Score : string;
  MainName_OrganisationName : string;
  MainTradingName_OrganisationName : string;
  MainTradingName_Score : string
}.

(** [ABRResponse]: the decoded record list (the two versions of the file
    differ in the XML path that leads to it). *)
Record ABRResponse : Type := { Records : list SearchResultsRecord }.

Record Result : Type := {
  ABN : string;
  State : string;
  LegalName : string;
  Score : string
}.

(** [Result{}]. *)
Definition emptyResult : Result :=
  {| ABN := ""; State := ""; LegalName := ""; Score := "" |}.

#[global] Instance Result_eq_dec : EqDecision Result.
Proof. solve_decision. Defined.

(** [regexp.MustCompile(`^\d{11}$`)]. *)
Definition abnRegex : Regexp.regexp := Regexp.ReRepeat Regexp.ReDigit 11.

Definition companyKeywords : list string :=
  ["pty"; "limited"; "ltd"; "inc"; "corporation"; "corp"; "group"; "holding"].

Definition unrelatedKeywords : list string :=
  ["cleaning"; "freight"; "toners"; "candles"; "music"; "ads"; "dogwash"].

(** [stringToSet]: every string of the slice becomes a key. *)
Definition stringToSet (strs : list string) : gset string :=
  fold_left (fun m s => {[ s ]} ∪ m) strs ∅.

(** [intersection]: the keys of [a] that [b] holds. *)
Definition intersection (a b : gset string) : gset string :=
  filter (fun key => key ∈ b) a.

(** The keyword loops of [findBestResult]: some keyword occurs in [nameLower]. *)
Definition containsAny (nameLower : string) (keywords : list string) : bool :=
  existsb (fun keyword => Strings.Contains nameLower keyword) keywords.

(** The state the registry calls run in: the outside world and the names
    searched so far, oldest first. *)
Record Net (World : Type) : Type := {
  world : World;
  requests : list string
}.
Arguments world {World} _.
Arguments requests {World} _.

(** Calls that reach the network: state passing over [Net]. *)
Definition IO (World A : Type) : Type := Net World -> A * Net World.

#[global] Instance IO_ret {World : Type} : MRet (IO World) :=
  fun A a n => (a, n).

#[global] Instance IO_bind {World : Type} : MBind (IO World) :=
  fun A B k m n => let (a, n') := m n in k a n'.

Section Client.

(** The world outside the process. *)
Variable World : Type.

(** [client.Get] followed by [io.ReadAll] in [searchByName], for the search
    of a business name: the body, or the error. *)
Variable registry_Get : string -> World -> (string + string) * World.

(** [xml.Unmarshal] into an [ABRResponse]; [None] is [err != nil]. *)
Variable xml_Unmarshal : string -> option ABRResponse.

(** [fmt.Sscanf(s, "%f", &v)]: the value stored in [v], or [None] when the
    scan fails and [v] is left as it was. *)
Variable Sscanf_f : string -> option float.

Definition searchByName (businessName : string) : IO World (string + string) :=
  fun n =>
    let (r, w) := registry_Get businessName (world n) in
    (r, {| world := w; requests := requests n ++ [businessName] |}).

(** The body of the loop of [getAllResults] past the [continue]. *)
Definition toResult (rec : SearchResultsRecord) : Result :=
  let abn := Strings.TrimSpace (IdentifierValue rec) in
  let state := Strings.TrimSpace (StateCode rec) in
  let legalName := Strings.TrimSpace (BusinessName_OrganisationName rec) in
  let legalName :=
    if decide (legalName = "")
    then Strings.TrimSpace (MainName_OrganisationName rec) else legalName in
  let legalName :=
    if decide (legalName = "")
    then Strings.TrimSpace (MainTradingName_OrganisationName rec) else legalName in
  let score := Strings.TrimSpace (BusinessName_Score rec) in
  let score :=
    if decide (score = "")
    then Strings.TrimSpace (MainTradingName_Score rec) else score in
  {| ABN := abn; State := state; LegalName := legalName; Score := score |}.

Definition getAllResults (xmlText : string) : list Result :=
  if decide (xmlText = "") then []
  else
    match xml_Unmarshal xmlText with
    | None => []
    | Some response =>
        fold_left
          (fun results rec =>
             let abn := Strings.TrimSpace (IdentifierValue rec) in
             let status := Strings.TrimSpace (IdentifierStatus rec) in
             if negb (Regexp.MatchString abnRegex abn)
                || negb (bool_decide (status = "Active"))
             then results
             else results ++ [toResult rec])
          (Records response) []
    end.

(** One round of the first loop of [findBestResult]: [None] is [continue],
    [Some totalScore] is the score appended with the result. *)
Definition scoreCandidate (businessName : string) (result : Result) : option float :=
  let searchLower := Strings.ToLower (Strings.TrimSpace businessName) in
  let searchWords := stringToSet (Strings.Fields searchLower) in
  let nameLower := Strings.ToLower (LegalName result) in
  let resultWords := stringToSet (Strings.Fields nameLower) in
  let isCompany := containsAny nameLower companyKeywords in
  if negb isCompany then None
  else
    let commonWords := intersection searchWords resultWords in
    if (size commonWords =? 0)%nat then None
    else
      let hasUnrelated := containsAny nameLower unrelatedKeywords in
      if hasUnrelated && (size commonWords <? 2)%nat then None
      else
        let scoreValue :=
          match Sscanf_f (Score result) with
          | Some v => v
          | None => 50%float
          end in
        let exactMatch :=
          if decide (searchLower = nameLower) then 1000%float else 0%float in
        let containsMatch :=
          if Strings.Contains searchLower nameLower
             || Strings.Contains nameLower searchLower
          then 500%float else 0%float in
        let wordMatch :=
          (PrimFloat.of_uint63 (Uint63.of_nat (size commonWords)) * 100)%float in
        Some (exactMatch + containsMatch + wordMatch + scoreValue)%float.

(** [scoredResults] when the first loop is over. *)
Definition scoreCandidates (businessName : string) (results : list Result)
  : list (float * Result) :=
  fold_left
    (fun scoredResults result =>
       match scoreCandidate businessName result with
       | None => scoredResults
       | Some totalScore => scoredResults ++ [(totalScore, result)]
       end)
    results [].

(** The second loop of [findBestResult]: the running maximum. *)
Definition maxStep (cur : float * Result) (sr : float * Result) : float * Result :=
  if (fst cur <? fst sr)%float then sr else cur.

Definition findBestResult (businessName : string) (results : list Result) : Result :=
  if (length results =? 0)%nat then emptyResult
  else
    match scoreCandidates businessName results with
    | [] => emptyResult
    | first :: rest => snd (fold_left maxStep rest first)
    end.

(** The loop of stage 2: the first result with the ABN of [bestResult]
    takes its place, and the loop breaks. *)
Fixpoint scanForABN (allResults2 : list Result) (bestResult : Result) : Result :=
  match allResults2 with
  | [] => bestResult
  | result :: rest =>
      if decide (ABN result = ABN bestResult) then result
      else scanForABN rest bestResult
  end.

Definition returned (r : Result) : string * string * string * string :=
  (ABN r, State r, LegalName r, Score r).

(** [Lookup], lines 226-257: search, rank, verify. *)
Definition Lookup (businessName : string)
  : IO World (string * string * string * string) :=
  r ← searchByName businessName;
  match r with
  | inr _ => mret ("", "", "", "")
  | inl xmlResponse =>
      let allResults := getAllResults xmlResponse in
      let bestResult := findBestResult businessName allResults in
      if decide (ABN bestResult = "") then mret ("", "", "", "")
      else
        bestResult ←
          (if decide (LegalName bestResult = "") then mret bestResult
           else
             r2 ← searchByName (LegalName bestResult);
             match r2 with
             | inl xmlResponse2 =>
                 mret (scanForABN (getAllResults xmlResponse2) bestResult)
             | inr _ => mret bestResult
             end);
        mret (returned bestResult)
  end.

(** [Lookup] of the second version of the file, lines 512-527: the first
    result, no ranking and no second search. *)
Definition Lookup_v2 (businessName : string)
  : IO World (string * string * string * string) :=
  r ← searchByName businessName;
  match r with
  | inr _ => mret ("", "", "", "")
  | inl xmlResponse =>
      match getAllResults xmlResponse with
      | [] => mret ("", "", "", "")
      | firstResult :: _ => mret (returned firstResult)
      end
  end.

(** [GetAllResults], lines 561-569 (its two [Printf] are left out). *)
Definition GetAllResults (businessName : string) : IO World (list Result) :=
  r ← searchByName businessName;
  match r with
  | inr _ => mret []
  | inl xmlResponse => mret (getAllResults xmlResponse)
  end.

(** The loop of [VerifyABN]: the first result with the ABN decides. *)
Fixpoint verifyScan (results : list Result) (abn state : string) : bool :=
  match results with
  | [] => false
  | result :: rest =>
      if decide (ABN result = abn)
      then (if decide (state <> "" /\ State result <> state) then false else true)
      else verifyScan rest abn state
  end.

(** [VerifyABN], lines 529-558. *)
Definition VerifyABN (abn legalName state : string) : IO World bool :=
  if negb (Regexp.MatchString abnRegex abn) then mret false
  else
    r ← searchByName legalName;
    match r with
    | inr _ => mret false
    | inl xmlResponse => mret (verifyScan (getAllResults xmlResponse) abn state)
    end.

End Client.

End abr.

(** ** The client over Go's own string functions

    [strings.TrimSpace], [strings.ToLower] and [strings.Fields] follow the
    Unicode tables of Go's library, which are not code of this repository.
    Here the functions of [client.go] that call them are embedded with the
    three as variables, so what is proved of them holds for Go's functions on
    every byte string; module [abr] above is the instance at the ASCII
    functions of module [Strings]. *)

Module abrU.

Import abr.

Section Client.

Variable TrimSpace : string -> string.
Variable ToLower : string -> string.
Variable Fields : string -> list string.

Variable World : Type.
Variable registry_Get : string -> World -> (string + string) * World.
Variable xml_Unmarshal : string -> option ABRResponse.
Variable Sscanf_f : string -> option float.

(** The body of the loop of [getAllResults] past the [continue]. *)
Definition toResult (rec : SearchResultsRecord) : Result :=
  let abn := TrimSpace (IdentifierValue rec) in
  let state := TrimSpace (StateCode rec) in
  let legalName := TrimSpace (BusinessName_OrganisationName rec) in
  let legalName :=
    if decide (legalName = "")
    then TrimSpace (MainName_OrganisationName rec) else legalName in
  let legalName :=
    if decide (legalName = "")
    then TrimSpace (MainTradingName_OrganisationName rec) else legalName in
  let score := TrimSpace (BusinessName_Score rec) in
  let score :=
    if decide (score = "")
    then TrimSpace (MainTradingName_Score rec) else score in
  {| ABN := abn; State := state; LegalName := legalName; Score := score |}.

Definition getAllResults (xmlText : string) : list Result :=
  if decide (xmlText = "") then []
  else
    match xml_Unmarshal xmlText with
    | None => []
    | Some response =>
        fold_left
          (fun results rec =>
             let abn := TrimSpace (IdentifierValue rec) in
             let status := TrimSpace (IdentifierStatus rec) in
             if negb (Regexp.MatchString abnRegex abn)
                || negb (bool_decide (status = "Active"))
             then results
             else results ++ [toResult rec])
          (Records response) []
    end.

(** One round of the first loop of [findBestResult]: [None] is [continue],
    [Some totalScore] is the score appended with the result. *)
Definition scoreCandidate (businessName : string) (result : Result) : option float :=
  let searchLower := ToLower (TrimSpace businessName) in
  let searchWords := stringToSet (Fields searchLower) in
  let nameLower := ToLower (LegalName result) in
  let resultWords := stringToSet (Fields nameLower) in
  let isCompany := containsAny nameLower companyKeywords in
  if negb isCompany then None
  else
    let commonWords := intersection searchWords resultWords in
    if (size commonWords =? 0)%nat then None
    else
      let hasUnrelated := containsAny nameLower unrelatedKeywords in
      if hasUnrelated && (size commonWords <? 2)%nat then None
      else
        let scoreValue :=
          match Sscanf_f (Score result) with
          | Some v => v
          | None => 50%float
          end in
        let exactMatch :=
          if decide (searchLower = nameLower) then 1000%float else 0%float in
        let containsMatch :=
          if Strings.Contains searchLower nameLower
             || Strings.Contains nameLower searchLower
          then 500%float else 0%float in
        let wordMatch :=
          (PrimFloat.of_uint63 (Uint63.of_nat (size commonWords)) * 100)%float in
        Some (exactMatch + containsMatch + wordMatch + scoreValue)%float.

(** [scoredResults] when the first loop is over. *)
Definition scoreCandidates (businessName : string) (results : list Result)
  : list (float * Result) :=
  fold_left
    (fun scoredResults result =>
       match scoreCandidate businessName result with
       | None => scoredResults
       | Some totalScore => scoredResults ++ [(totalScore, result)]
       end)
    results [].

Definition findBestResult (businessName : string) (results : list Result) : Result :=
  if (length results =? 0)%nat then emptyResult
  else
    match scoreCandidates businessName results with
    | [] => emptyResult
    | first :: rest => snd (fold_left maxStep rest first)
    end.

(** [Lookup], lines 226-257: search, rank, verify. *)
Definition Lookup (businessName : string)
  : IO World (string * string * string * string) :=
  r ← searchByName World registry_Get businessName;
  match r with
  | inr _ => mret ("", "", "", "")
  | inl xmlResponse =>
      let allResults := getAllResults xmlResponse in
      let bestResult := findBestResult businessName allResults in
      if decide (ABN bestResult = "") then mret ("", "", "", "")
      else
        bestResult ←
          (if decide (LegalName bestResult = "") then mret bestResult
           else
             r2 ← searchByName World registry_Get (LegalName bestResult);
             match r2 with
             | inl xmlResponse2 =>
                 mret (scanForABN (getAllResults xmlResponse2) bestResult)
             | inr _ => mret bestResult
             end);
        mret (returned bestResult)
  end.

End Client.

End abrU.

(** ** Package [google]: what the server reads of [internal/google/client.go] *)

Module google.

Record MerchantInfo : Type := {
  LegalName : string;
  ABN : string;
  ACN : string;
  HeadOffice : string;
  State : string;
  Postcode : string;
  Confidence : float
}.

End google.

(** ** Package [server]: [internal/server/server.go] *)

Module server.

Import abr.

Record MerchantResult : Type := {
  Name : string;
  GoogleLegalName : string;
  GoogleState : string;
  GooglePostcode : string;
  ABNFound : string;
  ABNLegalName : string;
  ABNState : string;
  Verified : string;
  ABNCount : nat;
  AllABNResults : list Result
}.

(** The two maps of [Server]; [results] is filled by [LoadResults] before
    the server starts, [cache] is the map that [cacheMutex] guards. *)
Record Server : Type := {
  results : gmap string MerchantResult;
  cache : gmap string MerchantResult
}.

(** What the handler writes: status 404 with the error body, or status 200
    with the ten fields of a [MerchantResult] as JSON. *)
Inductive Response : Type :=
| NotFound
| OK (body : MerchantResult).

(** [result.AllABNResults = allResults; result.ABNCount = len(allResults)]. *)
Definition withABN (result : MerchantResult) (allResults : list Result) : MerchantResult :=
  {| Name := Name result;
     GoogleLegalName := GoogleLegalName result;
     GoogleState := GoogleState result;
     GooglePostcode := GooglePostcode result;
     ABNFound := ABNFound result;
     ABNLegalName := ABNLegalName result;
     ABNState := ABNState result;
     Verified := Verified result;
     ABNCount := length allResults;
     AllABNResults := allResults |}.

(** The three assignments from [googleInfo]. *)
Definition withGoogle (result : MerchantResult) (googleInfo : google.MerchantInfo)
  : MerchantResult :=
  {| Name := Name result;
     GoogleLegalName := google.LegalName googleInfo;
     GoogleState := google.State googleInfo;
     GooglePostcode := google.Postcode googleInfo;
     ABNFound := ABNFound result;
     ABNLegalName := ABNLegalName result;
     ABNState := ABNState result;
     Verified := Verified result;
     ABNCount := ABNCount result;
     AllABNResults := AllABNResults result |}.

(** [s.cache[merchantName] = result]. *)
Definition store (s : Server) (merchantName : string) (result : MerchantResult) : Server :=
  {| results := results s; cache := <[merchantName := result]> (cache s) |}.

(** The name the handler reads off the request path; it is the key of both maps. *)
Definition merchantNameOf (path : string) : string :=
  Strings.Trim (Strings.TrimPrefix path "/api/merchant/") "/".

(** A request being served.  The handler holds [cacheMutex] only while it
    reads the cache and while it writes it, so between the points below
    other requests may run. *)
Inductive Thread : Type :=
| Arrived (path : string)
| Missed (merchantName : string) (result : MerchantResult)
| GotABN (merchantName : string) (result : MerchantResult)
| GotGoogle (merchantName : string) (result : MerchantResult)
| Replied (resp : Response).

(** The server with the requests in flight. *)
Record System (World : Type) : Type := {
  srv : Server;
  net : Net World;
  threads : list Thread
}.
Arguments srv {World} _.
Arguments net {World} _.
Arguments threads {World} _.

(** How [LoadResults] ends: it returns nil, it returns an error, or an
    index or slice bound is out of range and the process panics. *)
Inductive Loaded : Type :=
| LoadOK (s : Server)
| LoadErr (err : string)
| LoadPanic.

(** The struct literal of [LoadResults]; [None] when an index is out of
    range. *)
Definition loadedRow (record : list string) : option MerchantResult :=
  r0 ← record !! 0;
  r1 ← record !! 1;
  r2 ← record !! 2;
  r3 ← record !! 3;
  r5 ← record !! 5;
  Some {| Name := r0;
          GoogleLegalName := "";
          GoogleState := "";
          GooglePostcode := "";
          ABNFound := r1;
          ABNLegalName := r3;
          ABNState := r2;
          Verified := r5;
          ABNCount := 0;
          AllABNResults := [] |}.

(** The loop of [LoadResults] over the records past the header. *)
Fixpoint loadRecords (records : list (list string))
    (results : gmap string MerchantResult) : option (gmap string MerchantResult) :=
  match records with
  | [] => Some results
  | record :: rest =>
      if (length record <? 5)%nat then loadRecords rest results
      else
        match record !! 0, loadedRow record with
        | Some r0, Some row => loadRecords rest (<[r0 := row]> results)
        | _, _ => None
        end
  end.

(** [LoadResults]; [file] is what [os.Open] and [csv.Reader.ReadAll] give
    for [s.csvFile]: the records, or the error. *)
Definition LoadResults (file : list (list string) + string) (s : Server) : Loaded :=
  match file with
  | inr err => LoadErr err
  | inl [] => LoadPanic
  | inl (_ :: records) =>
      match loadRecords records (results s) with
      | None => LoadPanic
      | Some loaded => LoadOK {| results := loaded; cache := cache s |}
      end
  end.

(** [result] is the row [row] of the results with the fields that the
    handler fills: the CSV fields are the row's, and the count is the length
    of the ABN results. *)
Definition builtFrom (row result : MerchantResult) : Prop :=
  Name result = Name row
  /\ ABNFound result = ABNFound row
  /\ ABNLegalName result = ABNLegalName row
  /\ ABNState result = ABNState row
  /\ Verified result = Verified row
  /\ ABNCount result = length (AllABNResults result).

(** Every cache entry is built from the row of its key. *)
Definition cacheConsistent (s : Server) : Prop :=
  forall k v, cache s !! k = Some v ->
    exists row, results s !! k = Some row /\ builtFrom row v.

(** The request is past its registry search, or was answered without one. *)
Definition pastSearch (t : Thread) : bool :=
  match t with
  | GotABN _ _ | GotGoogle _ _ | Replied _ => true
  | Arrived _ | Missed _ _ => false
  end.

Definition countPast (ts : list Thread) : nat :=
  length (List.filter pastSearch ts).

(** What a request in flight holds comes from the results [res]. *)
Definition threadConsistent (res : gmap string MerchantResult) (t : Thread) : Prop :=
  match t with
  | Arrived _ => True
  | Missed m r => res !! m = Some r
  | GotABN m r | GotGoogle m r => exists row, res !! m = Some row /\ builtFrom row r
  | Replied NotFound => True
  | Replied (OK body) => exists k row, res !! k = Some row /\ builtFrom row body
  end.

(** A request for [merchantName] that has not been answered 404. *)
Definition servesName (merchantName : string) (t : Thread) : Prop :=
  match t with
  | Arrived path => merchantNameOf path = merchantName
  | Missed m _ | GotABN m _ | GotGoogle m _ => m = merchantName
  | Replied resp => resp <> NotFound
  end.

Definition isReplied (t : Thread) : bool :=
  match t with Replied _ => true | _ => false end.

Section Handler.

Variable World : Type.
Variable registry_Get : string -> World -> (string + string) * World.
Variable xml_Unmarshal : string -> option ABRResponse.

(** [googleClient.ExtractMerchantInfo]; the handler drops its error. *)
Variable google_ExtractMerchantInfo : string -> World -> google.MerchantInfo * World.

Definition ExtractMerchantInfo (merchantName : string) : IO World google.MerchantInfo :=
  fun n =>
    let (info, w) := google_ExtractMerchantInfo merchantName (world n) in
    (info, {| world := w; requests := requests n |}).

(** [handleMerchantAPI], one request served from start to end. *)
Definition handleMerchantAPI (s : Server) (path : string) : IO World (Response * Server) :=
  let merchantName := merchantNameOf path in
  match results s !! merchantName with
  | None => mret (NotFound, s)
  | Some result =>
      match cache s !! merchantName with
      | Some cachedResult => mret (OK cachedResult, s)
      | None =>
          allResults ← GetAllResults World registry_Get xml_Unmarshal merchantName;
          let result := withABN result allResults in
          googleInfo ← ExtractMerchantInfo merchantName;
          let result := withGoogle result googleInfo in
          mret (OK result, store s merchantName result)
      end
  end.

(** Requests served one after the other, each to its end. *)
Fixpoint serveAll (paths : list string) (s : Server) : IO World (list Response * Server) :=
  match paths with
  | [] => mret ([], s)
  | path :: rest =>
      served ← handleMerchantAPI s path;
      more ← serveAll rest (snd served);
      mret (fst served :: fst more, snd more)
  end.

(** The next action of one request: up to the end of the read-locked cache
    check; the registry search; the Google search; the write-locked store. *)
Definition stepThread (t : Thread) (s : Server) (n : Net World)
  : Thread * Server * Net World :=
  match t with
  | Arrived path =>
      let merchantName := merchantNameOf path in
      match results s !! merchantName with
      | None => (Replied NotFound, s, n)
      | Some result =>
          match cache s !! merchantName with
          | Some cachedResult => (Replied (OK cachedResult), s, n)
          | None => (Missed merchantName result, s, n)
          end
      end
  | Missed merchantName result =>
      let (allResults, n') :=
        GetAllResults World registry_Get xml_Unmarshal merchantName n in
      (GotABN merchantName (withABN result allResults), s, n')
  | GotABN merchantName result =>
      let (googleInfo, n') := ExtractMerchantInfo merchantName n in
      (GotGoogle merchantName (withGoogle result googleInfo), s, n')
  | GotGoogle merchantName result =>
      (Replied (OK result), store s merchantName result, n)
  | Replied resp => (t, s, n)
  end.

(** Request number [i] takes its next action. *)
Definition step (i : nat) (σ : System World) : System World :=
  match threads σ !! i with
  | None => σ
  | Some t =>
      let '(t', s', n') := stepThread t (srv σ) (net σ) in
      {| srv := s'; net := n'; threads := <[i := t']> (threads σ) |}
  end.

(** A schedule names the request that moves at each turn. *)
Definition run (schedule : list nat) (σ : System World) : System World :=
  fold_left (fun σ i => step i σ) schedule σ.

(** [N] requests for the same path arrive together. *)
Definition arrive (s : Server) (n : Net World) (N : nat) (path : string) : System World :=
  {| srv := s; net := n; threads := replicate N (Arrived path) |}.

(** What every schedule keeps true of [N] requests for one name: [k]
    searches were made, by requests that are past their search. *)
Definition searched (merchantName : string) (row : MerchantResult) (n0 : Net World)
    (N : nat) (σ : System World) (k : nat) : Prop :=
  results (srv σ) !! merchantName = Some row
  /\ requests (net σ) = requests n0 ++ replicate k merchantName
  /\ length (threads σ) = N
  /\ Forall (servesName merchantName) (threads σ)
  /\ k <= countPast (threads σ)
  /\ (cache (srv σ) !! merchantName <> None \/ 0 < countPast (threads σ) -> 1 <= k).

End Handler.

End server.

(** ** The search handler over Go's [strings.ToLower] *)

Module serverU.

Import server.

Section Search.

Variable ToLower : string -> string.

(** The test of the loop of [handleSearchAPI]. *)
Definition matchesQuery (query : string) (result : MerchantResult) : bool :=
  bool_decide (query = "*")
  || Strings.Contains (ToLower (Name result)) (ToLower query).

(** The rows that [handleSearchAPI] encodes, in the order of [map_to_list];
    Go fixes no order, and only membership says something of the code. *)
Definition handleSearchAPI (s : Server) (query : string) : list MerchantResult :=
  List.filter (matchesQuery query) (map snd (map_to_list (results s))).

End Search.

End serverU.

(** ** Package [data]: [internal/data/processor.go] *)

Module data.

Record Result : Type := {
  MerchantName : string;
  ABN : string;
  State : string;
  LegalName : string;
  Score : string;
  Verified : bool;
  Confidence : float;
  Address : string;
  GoogleABN : string;
  GoogleLegalName : string
}.

Record Processor : Type := {
  outputFile : string;
  rows : list Result
}.

Definition NewProcessor (outputFile : string) : Processor :=
  {| outputFile := outputFile; rows := [] |}.

Definition AddResult (p : Processor) (r : Result) : Processor :=
  {| outputFile := outputFile p; rows := rows p ++ [r] |}.

Definition boolToYesNo (b : bool) : string :=
  if b then "Yes" else "No".

(** The slice [s[:n]] for [0 <= n <= len(s)]. *)
Fixpoint slicePrefix (n : nat) (s : string) : string :=
  match n, s with
  | O, _ => EmptyString
  | S _, EmptyString => EmptyString
  | S n', String c s' => String c (slicePrefix n' s')
  end.

(** [truncate]; [maxLen] is a Go [int], and [None] is the panic of the
    slice expression when [maxLen-3] is negative. *)
Definition truncate (s : string) (maxLen : Z) : option string :=
  if (Z.of_nat (String.length s) <=? maxLen)%Z then Some s
  else if (maxLen - 3 <? 0)%Z then None
  else Some (String.append (slicePrefix (Z.to_nat (maxLen - 3)) s) "...").

Definition header : list string :=
  ["merchant_name"; "abn"; "state"; "legal_name"; "score"; "verified";
   "confidence"; "head_office_address"; "google_abn"; "google_legal_name"].

Section Save.

(** [fmt.Sprintf("%.2f", x)]. *)
Variable Sprintf_2f : float -> string.

(** The row that [SaveToFile] writes for a result. *)
Definition csvRow (r : Result) : list string :=
  [MerchantName r; ABN r; State r; LegalName r; Score r;
   boolToYesNo (Verified r); Sprintf_2f (Confidence r);
   Address r; GoogleABN r; GoogleLegalName r].

(** The records that [SaveToFile] hands to the CSV writer once the file is
    created: the header, then a row for each result. *)
Definition csvRecords (p : Processor) : list (list string) :=
  header :: map csvRow (rows p).

End Save.

(** The counters of [PrintSummary] after its first loop: found, verified,
    with an address. *)
Definition summaryCounts (p : Processor) : nat * nat * nat :=
  fold_left
    (fun '(found, verified, withAddress) r =>
       (if decide (ABN r <> "") then S found else found,
        if Verified r then S verified else verified,
        if decide (Address r <> "") then S withAddress else withAddress))
    (rows p) (0, 0, 0).

End data.

(** ** The batch driver: [cmd/main.go] *)

Module cmd.

Import abr.

(** The two [data.Result] literals of the loop of [main]. *)
Definition resultRow (merchant : string) (looked : string * string * string * string)
  : data.Result :=
  let '(abn, abnState, abnLegalName, score) := looked in
  if decide (abn = "")
  then {| data.MerchantName := merchant;
          data.ABN := "";
          data.State := "";
          data.LegalName := merchant;
          data.Score := "";
          data.Verified := false;
          data.Confidence := 0%float;
          data.Address := "";
          data.GoogleABN := "";
          data.GoogleLegalName := "" |}
  else {| data.MerchantName := merchant;
          data.ABN := abn;
          data.State := abnState;
          data.LegalName := abnLegalName;
          data.Score := score;
          data.Verified := true;
          data.Confidence := 100%float;
          data.Address := "";
          data.GoogleABN := "";
          data.GoogleLegalName := "" |}.

(** A row as the loop of [main] builds it. *)
Definition driverRow (r : data.Result) : Prop :=
  (data.Verified r = true <-> data.ABN r <> "")
  /\ (data.ABN r = "" -> data.LegalName r = data.MerchantName r)
  /\ data.Address r = ""
  /\ data.GoogleABN r = ""
  /\ data.GoogleLegalName r = "".

Section Main.

Variable World : Type.

(** [abrClient.Lookup], in either version of the client. *)
Variable Lookup : string -> IO World (string * string * string * string).

(** The loop of [main] over the merchants. *)
Fixpoint processMerchants (merchants : list string) (processor : data.Processor)
  : IO World data.Processor :=
  match merchants with
  | [] => mret processor
  | merchant :: rest =>
      looked ← Lookup merchant;
      processMerchants rest (data.AddResult processor (resultRow merchant looked))
  end.

End Main.

End cmd.

(** ** A small registry to run the code on *)

Module Demo.

Import abr.

(** Unsigned decimal numerals of at most fifteen digits, on which
    [fmt.Sscanf] with [%f] stores the number read; the scan of any other
    text is taken to fail. *)
Fixpoint digitsValue (s : string) (acc : Z) : Z :=
  match s with
  | EmptyString => acc
  | String c s' => digitsValue s' (10 * acc + (Z.of_nat (nat_of_ascii c) - 48))
  end.

Definition Sscanf_f (s : string) : option float :=
  if Regexp.allDigits s && (1 <=? String.length s)%nat && (String.length s <=? 15)%nat
  then Some (PrimFloat.of_uint63 (Uint63.of_Z (digitsValue s 0)))
  else None.

Definition record (abn status state name score : string) : SearchResultsRecord :=
  {| IdentifierValue := abn;
     IdentifierStatus := status;
     StateCode := state;
     BusinessName_OrganisationName := name;
     BusinessName_Score := score;
     MainName_OrganisationName := "";
     MainTradingName_OrganisationName := "";
     MainTradingName_Score := "" |}.

(** The registry answers a search with the searched name as the body, and
    fails on the name ["offline"]. *)
Definition registry_Get (businessName : string) (w : unit) : (string + string) * unit :=
  if decide (businessName = "offline") then (inr "timeout", w)
  else (inl businessName, w).

Definition appleResponse : ABRResponse :=
  {| Records :=
      [ record " 50169260144 " "Active" "NSW" "Apple Pty Ltd" "95";
        record "12345678901" "Cancelled" "VIC" "Apple Group Limited" "99";
        record "1234" "Active" "QLD" "Apple Holding" "90" ] |}.

Definition verifyResponse : ABRResponse :=
  {| Records :=
      [ record "11111111111" "Active" "WA" "Apple Orchard Pty Ltd" "70";
        record "50169260144" "Active" "ACT" "APPLE PTY LTD" "100" ] |}.

Definition acmeResponse : ABRResponse :=
  {| Records :=
      [ record "22222222222" "Active" "NSW" "Acme Holdings Pty Ltd" "60";
        record "33333333333" "Active" "VIC" "Acme Cleaning Pty Ltd" "80" ] |}.

(** The decoder: the records behind each body; the body ["garbled"] does
    not decode. *)
Definition xml_Unmarshal (xmlText : string) : option ABRResponse :=
  if decide (xmlText = "garbled") then None
  else if decide (xmlText = "Apple") then Some appleResponse
  else if decide (xmlText = "Apple Pty Ltd") then Some verifyResponse
  else if decide (xmlText = "Acme Cleaning Services") then Some acmeResponse
  else Some {| Records := [] |}.

Definition google_ExtractMerchantInfo {W : Type} (merchantName : string) (w : W)
  : google.MerchantInfo * W :=
  ({| google.LegalName := merchantName;
      google.ABN := "";
      google.ACN := "";
      google.HeadOffice := "";
      google.State := "NSW";
      google.Postcode := "2000";
      google.Confidence := 0%float |}, w).

Definition net0 : Net unit := {| world := tt; requests := [] |}.

Definition appleRow : server.MerchantResult :=
  {| server.Name := "Apple";
     server.GoogleLegalName := "";
     server.GoogleState := "";
     server.GooglePostcode := "";
     server.ABNFound := "50169260144";
     server.ABNLegalName := "Apple Pty Ltd";
     server.ABNState := "NSW";
     server.Verified := "true";
     server.ABNCount := 0;
     server.AllABNResults := [] |}.

(** A server that has loaded one row, with an empty cache. *)
Definition server0 : server.Server :=
  {| server.results := {[ "Apple" := appleRow ]}; server.cache := ∅ |}.

Definition appleRowLower : server.MerchantResult :=
  {| server.Name := "apple";
     server.GoogleLegalName := "";
     server.GoogleState := "";
     server.GooglePostcode := "";
     server.ABNFound := "";
     server.ABNLegalName := "";
     server.ABNState := "";
     server.Verified := "false";
     server.ABNCount := 0;
     server.AllABNResults := [] |}.

(** A server that has loaded the rows ["Apple"] and ["apple"]. *)
Definition server2 : server.Server :=
  {| server.results := {[ "Apple" := appleRow; "apple" := appleRowLower ]};
     server.cache := ∅ |}.

(** A registry that answers its first search and times out on the later
    ones; the world counts the searches made. *)
Definition flaky_Get (businessName : string) (w : nat) : (string + string) * nat :=
  match w with
  | O => (inl businessName, 1)
  | S _ => (inr "timeout", S w)
  end.

Definition flakyNet0 : Net nat := {| world := 0; requests := [] |}.

(** A results file: the header and two rows of the batch driver. *)
Definition csvFile : list (list string) :=
  [ data.header;
    ["Apple"; "50169260144"; "NSW"; "Apple Pty Ltd"; "95"; "Yes"; "100.00"; ""; ""; ""];
    ["kmart"; ""; ""; "kmart"; ""; "No"; "0.00"; ""; ""; ""] ].

(** [%.2f] on the two confidences that the batch driver writes. *)
Definition Sprintf_2f (x : float) : string :=
  if (x =? 100)%float then "100.00" else "0.00".

Definition getAllResults := abr.getAllResults xml_Unmarshal.
Definition findBestResult := abr.findBestResult Sscanf_f.
Definition scoreCandidates := abr.scoreCandidates Sscanf_f.
Definition Lookup := abr.Lookup unit registry_Get xml_Unmarshal Sscanf_f.
Definition handleMerchantAPI :=
  server.handleMerchantAPI unit registry_Get xml_Unmarshal google_ExtractMerchantInfo.
Definition run :=
  server.run unit registry_Get xml_Unmarshal google_ExtractMerchantInfo.

(** Two requests served one after the other. *)
Definition twoRequests (s : server.Server) (path1 path2 : string) (n : Net unit)
  : server.Response * server.Response * server.Server * Net unit :=
  let '(resp1, s1, n1) := handleMerchantAPI s path1 n in
  let '(resp2, s2, n2) := handleMerchantAPI s1 path2 n1 in
  (resp1, resp2, s2, n2).
Definition runFlaky :=
  server.run nat flaky_Get xml_Unmarshal google_ExtractMerchantInfo.

End Demo.

(** ** The specification's words *)

Module Spec.

Import abr.

(** 4.1: the identifier matches [^\d{11}$], eleven ASCII digits. *)
Definition isABN (s : string) : Prop :=
  String.length s = 11 /\ Regexp.allDigits s = true.

(** 4.1: the records that become candidates. *)
Definition accepted (rec : SearchResultsRecord) : Prop :=
  isABN (Strings.TrimSpace (IdentifierValue rec))
  /\ Strings.TrimSpace (IdentifierStatus rec) = "Active".

#[global] Instance isABN_dec (s : string) : Decision (isABN s).
Proof. unfold isABN. apply _. Defined.

#[global] Instance accepted_dec (rec : SearchResultsRecord) : Decision (accepted rec).
Proof. unfold accepted. apply _. Defined.

(** 4.2: a name as its set of words, case-insensitive and
    whitespace-delimited. *)
Definition tokenize (s : string) : gset string :=
  list_to_set (Strings.Fields (Strings.ToLower s)).

Definition commonWords (inputName legalName : string) : gset string :=
  tokenize inputName ∩ tokenize legalName.

(** The legal name, case-insensitive, contains a keyword of the list. *)
Definition hasKeyword (legalName : string) (keywords : list string) : Prop :=
  exists keyword,
    In keyword keywords
    /\ Strings.Contains (Strings.ToLower legalName) keyword = true.

Definition entityTypeGate (c : Result) : Prop :=
  hasKeyword (LegalName c) companyKeywords.

Definition lexicalOverlapGate (inputName : string) (c : Result) : Prop :=
  commonWords inputName (LegalName c) <> ∅.

Definition noiseGate (inputName : string) (c : Result) : Prop :=
  ~ (hasKeyword (LegalName c) unrelatedKeywords
     /\ size (commonWords inputName (LegalName c)) < 2).

Definition passesGates (inputName : string) (c : Result) : Prop :=
  entityTypeGate c /\ lexicalOverlapGate inputName c /\ noiseGate inputName c.

(** 4.2: a name normalized, lower-cased and trimmed. *)
Definition normalize (s : string) : string :=
  Strings.ToLower (Strings.TrimSpace s).

Definition exactMatchBonus (inputName : string) (c : Result) : float :=
  if decide (normalize inputName = normalize (LegalName c))
  then 1000%float else 0%float.

Definition containsBonus (inputName : string) (c : Result) : float :=
  if Strings.Contains (normalize inputName) (normalize (LegalName c))
     || Strings.Contains (normalize (LegalName c)) (normalize inputName)
  then 500%float else 0%float.

(** The raw match score when the score text reads as a number, else 50. *)
Definition registryMatchScore (Sscanf_f : string -> option float) (c : Result) : float :=
  match Sscanf_f (Score c) with
  | Some v => v
  | None => 50%float
  end.

Definition compositeScore (Sscanf_f : string -> option float)
    (inputName : string) (c : Result) : float :=
  (exactMatchBonus inputName c + containsBonus inputName c
   + 100 * PrimFloat.of_uint63 (Uint63.of_nat (size (commonWords inputName (LegalName c))))
   + registryMatchScore Sscanf_f c)%float.

(** 3, 4.3: the empty identity, "no match". *)
Definition noMatch : string * string * string * string := ("", "", "", "").

End Spec.

(** ** The specification's words, over Go's own string functions *)

Module SpecU.

Import abr.

Section Words.

Variable TrimSpace : string -> string.
Variable ToLower : string -> string.
Variable Fields : string -> list string.

(** 4.1: the records that become candidates. *)
Definition accepted (rec : SearchResultsRecord) : Prop :=
  Spec.isABN (TrimSpace (IdentifierValue rec))
  /\ TrimSpace (IdentifierStatus rec) = "Active".

#[global] Instance accepted_dec (rec : SearchResultsRecord) : Decision (accepted rec).
Proof. unfold accepted. apply _. Defined.

(** 4.2: a name normalized, lower-cased and trimmed. *)
Definition normalize (s : string) : string := ToLower (TrimSpace s).

(** 4.2: a name as its set of words, case-insensitive and
    whitespace-delimited. *)
Definition tokenize (s : string) : gset string :=
  list_to_set (Fields (normalize s)).

Definition commonWords (inputName legalName : string) : gset string :=
  tokenize inputName ∩ tokenize legalName.

(** The legal name, case-insensitive, contains a keyword of the list. *)
Definition hasKeyword (legalName : string) (keywords : list string) : Prop :=
  exists keyword,
    In keyword keywords /\ Strings.Contains (ToLower legalName) keyword = true.

Definition entityTypeGate (c : Result) : Prop :=
  hasKeyword (LegalName c) companyKeywords.

Definition lexicalOverlapGate (inputName : string) (c : Result) : Prop :=
  commonWords inputName (LegalName c) <> ∅.

Definition noiseGate (inputName : string) (c : Result) : Prop :=
  ~ (hasKeyword (LegalName c) unrelatedKeywords
     /\ size (commonWords inputName (LegalName c)) < 2).

Definition passesGates (inputName : string) (c : Result) : Prop :=
  entityTypeGate c /\ lexicalOverlapGate inputName c /\ noiseGate inputName c.

Definition exactMatchBonus (inputName : string) (c : Result) : float :=
  if decide (normalize inputName = normalize (LegalName c))
  then 1000%float else 0%float.

Definition containsBonus (inputName : string) (c : Result) : float :=
  if Strings.Contains (normalize inputName) (normalize (LegalName c))
     || Strings.Contains (normalize (LegalName c)) (normalize inputName)
  then 500%float else 0%float.

Definition compositeScore (Sscanf_f : string -> option float)
    (inputName : string) (c : Result) : float :=
  (exactMatchBonus inputName c + containsBonus inputName c
   + 100 * PrimFloat.of_uint63 (Uint63.of_nat (size (commonWords inputName (LegalName c))))
   + Spec.registryMatchScore Sscanf_f c)%float.

(** What the theorems on the client ask of Go's library: trimming a
    trimmed string changes nothing, and the empty string is lower-cased to
    itself. *)
Definition trimIdempotent : Prop := forall s, TrimSpace (TrimSpace s) = TrimSpace s.

Definition lowerOfEmpty : Prop := ToLower "" = "".

(** A result as the extractor builds it: the legal name is trimmed. *)
Definition trimmed (c : Result) : Prop := TrimSpace (LegalName c) = LegalName c.

End Words.

End SpecU.

(** * Properties *)

(** ** The scenarios of the specification, run on the small registry *)

Example Demo_getAllResults :
  Demo.getAllResults "Apple"
  = [ {| abr.ABN := "50169260144"; abr.State := "NSW";
         abr.LegalName := "Apple Pty Ltd"; abr.Score := "95" |} ].
Proof. vm_compute. reflexivity. Qed.

Example Demo_scores :
  map fst (Demo.scoreCandidates "Acme Cleaning Services"
             (Demo.getAllResults "Acme Cleaning Services"))
  = [160%float; 280%float].
Proof. vm_compute. reflexivity. Qed.

Example Demo_Lookup_apple :
  fst (Demo.Lookup "Apple" Demo.net0) = ("50169260144", "ACT", "APPLE PTY LTD", "100").
Proof. vm_compute. reflexivity. Qed.

Example Demo_Lookup_acme :
  fst (Demo.Lookup "Acme Cleaning Services" Demo.net0)
  = ("33333333333", "VIC", "Acme Cleaning Pty Ltd", "80").
Proof. vm_compute. reflexivity. Qed.

(** ** Strings *)

Section StringFacts.

Import Strings.

Lemma isSpace_toLower (c : ascii) : isSpace (toLower c) = isSpace c.
Proof. destruct c as [[] [] [] [] [] [] [] []]; reflexivity. Qed.

Lemma ToLower_empty (s : string) : ToLower s = "" <-> s = "".
Proof. destruct s; simpl; split; intros H; try reflexivity; discriminate H. Qed.

Lemma ToLower_trimLeft (s : string) : ToLower (trimLeft s) = trimLeft (ToLower s).
Proof.
  induction s as [|c s IH]; simpl; [reflexivity|].
  rewrite isSpace_toLower. destruct (isSpace c); [exact IH | reflexivity].
Qed.

Lemma ToLower_trimRight (s : string) : ToLower (trimRight s) = trimRight (ToLower s).
Proof.
  induction s as [|c s IH]; simpl; [reflexivity|].
  rewrite <- IH, isSpace_toLower.
  destruct (trimRight s) as [|d t]; simpl; [|reflexivity].
  destruct (isSpace c); reflexivity.
Qed.

Lemma ToLower_TrimSpace (s : string) : ToLower (TrimSpace s) = TrimSpace (ToLower s).
Proof. unfold TrimSpace. rewrite ToLower_trimRight, ToLower_trimLeft. reflexivity. Qed.

Lemma trimRight_head (c : ascii) (s : string) :
  isSpace c = false -> trimRight (String c s) = String c (trimRight s).
Proof. intros Hc. simpl. rewrite Hc. destruct (trimRight s); reflexivity. Qed.

Lemma trimRight_idem (s : string) : trimRight (trimRight s) = trimRight s.
Proof.
  induction s as [|c s IH]; simpl; [reflexivity|].
  destruct (trimRight s) as [|d t] eqn:E.
  - destruct (isSpace c) eqn:Hc; simpl; [reflexivity | rewrite Hc; reflexivity].
  - change (trimRight (String c (String d t))) with
      (match trimRight (String d t) with
       | EmptyString => if isSpace c then EmptyString else String c EmptyString
       | t' => String c t'
       end).
    rewrite IH. reflexivity.
Qed.

Lemma trimLeft_head (s : string) :
  trimLeft s = "" \/ exists c t, trimLeft s = String c t /\ isSpace c = false.
Proof.
  induction s as [|c s IH]; simpl; [left; reflexivity|].
  destruct (isSpace c) eqn:Hc; [exact IH|]. right. eauto.
Qed.

Lemma TrimSpace_idem (s : string) : TrimSpace (TrimSpace s) = TrimSpace s.
Proof.
  unfold TrimSpace.
  destruct (trimLeft_head s) as [-> | (c & t & -> & Hc)]; [reflexivity|].
  rewrite (trimRight_head c t Hc). simpl trimLeft. rewrite Hc.
  rewrite <- (trimRight_head c t Hc). apply trimRight_idem.
Qed.

Lemma fieldsFrom_trimLeft (s : string) : fieldsFrom (trimLeft s) "" = fieldsFrom s "".
Proof.
  induction s as [|c s IH]; simpl; [reflexivity|].
  destruct (isSpace c) eqn:Hc; [|simpl; rewrite Hc; reflexivity].
  rewrite IH. reflexivity.
Qed.

Lemma fieldsFrom_trimRight (s word : string) :
  fieldsFrom (trimRight s) word = fieldsFrom s word.
Proof.
  revert word. induction s as [|c s IH]; intros word; [reflexivity|].
  simpl trimRight. destruct (trimRight s) as [|d t] eqn:E.
  - destruct (isSpace c) eqn:Hc; simpl; rewrite Hc.
    + rewrite <- (IH ""). simpl. destruct (decide (word = "")); reflexivity.
    + rewrite <- IH. reflexivity.
  - change (fieldsFrom (String c (String d t)) word) with
      (if isSpace c
       then (if decide (word = "") then fieldsFrom (String d t) ""
             else word :: fieldsFrom (String d t) "")
       else fieldsFrom (String d t) (word ++ String c "")).
    rewrite !IH. reflexivity.
Qed.

Lemma Fields_TrimSpace (s : string) : Fields (TrimSpace s) = Fields s.
Proof.
  unfold Fields, TrimSpace. rewrite fieldsFrom_trimRight. apply fieldsFrom_trimLeft.
Qed.

Lemma HasPrefix_nonempty (s substr : string) :
  HasPrefix s substr = true -> substr <> "" -> s <> "".
Proof. destruct substr, s; simpl; intros H Hne; congruence. Qed.

Lemma Contains_nonempty (s substr : string) :
  Contains s substr = true -> substr <> "" -> s <> "".
Proof.
  destruct s; intros H Hne; [|discriminate].
  destruct substr; [congruence | discriminate H].
Qed.

End StringFacts.

(** ** The identifier pattern *)

Lemma times_digits (n : nat) (s : string) :
  Regexp.times n (Regexp.consume Regexp.ReDigit) s = Some ""
  <-> String.length s = n /\ Regexp.allDigits s = true.
Proof.
  revert s. induction n as [|n IH]; intros s.
  - simpl. destruct s; simpl; split.
    + intros _. split; reflexivity.
    + intros _. reflexivity.
    + intros H. discriminate H.
    + intros [H _]. discriminate H.
  - destruct s as [|c s]; simpl.
    + split; [intros H; discriminate H | intros [H _]; discriminate H].
    + destruct (Regexp.isDigit c); simpl.
      * rewrite IH. split; intros [H1 H2]; split; congruence.
      * split; [intros H; discriminate H | intros [_ H]; discriminate H].
Qed.

(** [abnRegex] matches the texts of eleven ASCII digits, and no other. *)
Lemma abnRegex_spec (s : string) :
  Regexp.MatchString abr.abnRegex s = true
  <-> String.length s = 11 /\ Regexp.allDigits s = true.
Proof.
  rewrite <- times_digits. unfold Regexp.MatchString, abr.abnRegex.
  change (Regexp.consume (Regexp.ReRepeat Regexp.ReDigit 11) s)
    with (Regexp.times 11 (Regexp.consume Regexp.ReDigit) s).
  destruct (Regexp.times 11 (Regexp.consume Regexp.ReDigit) s) as [[|c t]|];
    split; intros H; first [reflexivity | discriminate H].
Qed.

(** ** Candidate extraction *)

Section Extraction.

Import abr.

Variable xml_Unmarshal : string -> option ABRResponse.

Local Abbreviation getAllResults := (abr.getAllResults xml_Unmarshal).

Lemma extraction_loop (recs : list SearchResultsRecord) (acc : list Result) :
  fold_left
    (fun results rec =>
       let abn := Strings.TrimSpace (IdentifierValue rec) in
       let status := Strings.TrimSpace (IdentifierStatus rec) in
       if negb (Regexp.MatchString abnRegex abn)
          || negb (bool_decide (status = "Active"))
       then results
       else results ++ [toResult rec])
    recs acc
  = acc ++ map toResult (filter Spec.accepted recs).
Proof.
  revert acc. induction recs as [|rec recs IH]; intros acc; simpl.
  - rewrite app_nil_r. reflexivity.
  - rewrite IH. rewrite filter_cons.
    destruct (decide (Spec.accepted rec)) as [[Hid Hst] | Hno].
    + apply abnRegex_spec in Hid. rewrite Hid.
      rewrite (bool_decide_eq_true_2 _ Hst). simpl.
      rewrite <- app_assoc. reflexivity.
    + destruct (Regexp.MatchString abnRegex (Strings.TrimSpace (IdentifierValue rec))) eqn:Hm;
        simpl; [|reflexivity].
      destruct (bool_decide_reflect (Strings.TrimSpace (IdentifierStatus rec) = "Active"))
        as [Hst | Hst]; simpl; [|reflexivity].
      exfalso. apply Hno. split; [apply abnRegex_spec; exact Hm | exact Hst].
Qed.

Lemma getAllResults_decoded (xmlText : string) (response : ABRResponse) :
  xmlText <> "" ->
  xml_Unmarshal xmlText = Some response ->
  getAllResults xmlText = map toResult (filter Spec.accepted (Records response)).
Proof.
  intros Hne Hdec. unfold abr.getAllResults.
  destruct (decide (xmlText = "")) as [He | _]; [contradiction|].
  rewrite Hdec. apply extraction_loop.
Qed.

Lemma getAllResults_undecoded (xmlText : string) :
  xmlText = "" \/ xml_Unmarshal xmlText = None -> getAllResults xmlText = [].
Proof.
  intros H. unfold abr.getAllResults.
  destruct (decide (xmlText = "")) as [He | Hne]; [reflexivity|].
  destruct H as [H | H]; [contradiction | rewrite H; reflexivity].
Qed.

(** Whatever the response, each result is the image of a record that the
    filter let through. *)
Lemma getAllResults_from_record (xmlText : string) (c : Result) :
  In c (getAllResults xmlText) ->
  exists rec, Spec.accepted rec /\ c = toResult rec.
Proof.
  unfold abr.getAllResults.
  destruct (decide (xmlText = "")) as [He | Hne]; [intros []|].
  destruct (xml_Unmarshal xmlText) as [response|]; [|intros []].
  rewrite extraction_loop. simpl. intros Hin.
  apply in_map_iff in Hin. destruct Hin as (rec & <- & Hin).
  apply list_elem_of_In, list_elem_of_filter in Hin. destruct Hin as [Hacc _].
  exists rec. split; [exact Hacc | reflexivity].
Qed.

End Extraction.

(** ** The order of [float64] *)

Ltac sf_compare :=
  repeat match goal with
  | H : context [Z.compare ?a ?b] |- _ => destruct (Z.compare_spec a b); subst
  | |- context [Z.compare ?a ?b] => destruct (Z.compare_spec a b); subst
  | H : context [Pos.compare_cont Eq ?a ?b] |- _ =>
      change (Pos.compare_cont Eq a b) with (Pos.compare a b) in *;
      destruct (Pos.compare_spec a b); subst
  | |- context [Pos.compare_cont Eq ?a ?b] =>
      change (Pos.compare_cont Eq a b) with (Pos.compare a b) in *;
      destruct (Pos.compare_spec a b); subst
  end;
  simpl in *; try congruence; try lia.

Lemma SFleb_refl (a : spec_float) : a <> S754_nan -> SFleb a a = true.
Proof.
  unfold SFleb, SFcompare.
  destruct a as [[]|[]| |[] m e]; intros H; try reflexivity; try congruence; sf_compare.
Qed.

Lemma SFleb_of_not_ltb (a b : spec_float) :
  a <> S754_nan -> b <> S754_nan -> SFltb a b = false -> SFleb b a = true.
Proof.
  unfold SFleb, SFltb, SFcompare.
  destruct a as [[]|[]| |[] m1 e1], b as [[]|[]| |[] m2 e2]; intros Ha Hb H;
    try reflexivity; try congruence; sf_compare.
Qed.

Lemma SFleb_ltb_trans (a b c : spec_float) :
  SFleb a b = true -> SFltb b c = true -> SFltb a c = true.
Proof.
  unfold SFleb, SFltb, SFcompare.
  destruct a as [[]|[]| |[] m1 e1], b as [[]|[]| |[] m2 e2], c as [[]|[]| |[] m3 e3];
    intros H1 H2; try reflexivity; try congruence; sf_compare.
Qed.

Lemma SFltb_leb (a b : spec_float) : SFltb a b = true -> SFleb a b = true.
Proof. unfold SFleb, SFltb. destruct (SFcompare a b) as [[]|]; congruence. Qed.

Lemma SFmul_comm (prec emax : Z) (a b : spec_float) :
  SFmul prec emax a b = SFmul prec emax b a.
Proof.
  unfold SFmul.
  destruct a as [[]|[]| |[] m1 e1], b as [[]|[]| |[] m2 e2]; try reflexivity;
    simpl; f_equal; lia.
Qed.

Lemma float_mul_comm (x y : float) : (x * y)%float = (y * x)%float.
Proof. apply Prim2SF_inj. rewrite !FloatAxioms.mul_spec. apply SFmul_comm. Qed.

Lemma notNaN_spec (x : float) : PrimFloat.is_nan x = false -> Prim2SF x <> S754_nan.
Proof.
  unfold PrimFloat.is_nan. rewrite FloatAxioms.eqb_spec. intros H E.
  rewrite E in H. discriminate H.
Qed.

Lemma float_leb_refl (x : float) : PrimFloat.is_nan x = false -> (x <=? x)%float = true.
Proof. intros H. rewrite FloatAxioms.leb_spec. apply SFleb_refl, notNaN_spec, H. Qed.

Lemma float_leb_of_not_ltb (a b : float) :
  PrimFloat.is_nan a = false -> PrimFloat.is_nan b = false ->
  (a <? b)%float = false -> (b <=? a)%float = true.
Proof.
  rewrite FloatAxioms.ltb_spec, FloatAxioms.leb_spec. intros Ha Hb.
  apply SFleb_of_not_ltb; apply notNaN_spec; assumption.
Qed.

Lemma float_leb_ltb_trans (a b c : float) :
  (a <=? b)%float = true -> (b <? c)%float = true -> (a <? c)%float = true.
Proof. rewrite !FloatAxioms.ltb_spec, FloatAxioms.leb_spec. apply SFleb_ltb_trans. Qed.

Lemma float_ltb_leb (a b : float) : (a <? b)%float = true -> (a <=? b)%float = true.
Proof. rewrite FloatAxioms.ltb_spec, FloatAxioms.leb_spec. apply SFltb_leb. Qed.

(** ** Word sets *)

Lemma stringToSet_fold (strs : list string) (m : gset string) :
  fold_left (fun m s => {[ s ]} ∪ m) strs m = list_to_set strs ∪ m.
Proof.
  revert m. induction strs as [|s strs IH]; intros m; simpl.
  - rewrite (left_id_L ∅ (∪)). reflexivity.
  - rewrite IH. apply set_eq. intros x. rewrite !elem_of_union. tauto.
Qed.

Lemma stringToSet_spec (strs : list string) : abr.stringToSet strs = list_to_set strs.
Proof. unfold abr.stringToSet. rewrite stringToSet_fold. apply (right_id_L ∅ (∪)). Qed.

Lemma intersection_spec (a b : gset string) : abr.intersection a b = a ∩ b.
Proof.
  unfold abr.intersection. apply set_eq. intros x.
  rewrite elem_of_filter, elem_of_intersection. tauto.
Qed.

(** The word sets of the code, with the input trimmed first, are those of
    the specification. *)
Lemma commonWords_code (businessName legalName : string) :
  abr.intersection
    (abr.stringToSet (Strings.Fields (Strings.ToLower (Strings.TrimSpace businessName))))
    (abr.stringToSet (Strings.Fields (Strings.ToLower legalName)))
  = Spec.commonWords businessName legalName.
Proof.
  rewrite intersection_spec, !stringToSet_spec.
  rewrite ToLower_TrimSpace, Fields_TrimSpace. reflexivity.
Qed.

Lemma containsAny_spec (legalName : string) (keywords : list string) :
  abr.containsAny (Strings.ToLower legalName) keywords = true
  <-> Spec.hasKeyword legalName keywords.
Proof. unfold abr.containsAny, Spec.hasKeyword. apply existsb_exists. Qed.

(** ** Candidate ranking *)

Section Ranking.

Import abr.

Variable xml_Unmarshal : string -> option ABRResponse.
Variable Sscanf_f : string -> option float.

Local Abbreviation getAllResults := (abr.getAllResults xml_Unmarshal).
Local Abbreviation scoreCandidate := (abr.scoreCandidate Sscanf_f).
Local Abbreviation scoreCandidates := (abr.scoreCandidates Sscanf_f).
Local Abbreviation findBestResult := (abr.findBestResult Sscanf_f).

(** One round of the scoring loop, with the word sets of the specification. *)
Lemma scoreCandidate_gated (businessName : string) (c : Result) :
  scoreCandidate businessName c =
  let common := Spec.commonWords businessName (LegalName c) in
  let nameLower := Strings.ToLower (LegalName c) in
  if negb (containsAny nameLower companyKeywords) then None
  else if (size common =? 0)%nat then None
  else if containsAny nameLower unrelatedKeywords && (size common <? 2)%nat then None
  else Some
    ((if decide (Spec.normalize businessName = nameLower) then 1000 else 0)
     + (if Strings.Contains (Spec.normalize businessName) nameLower
           || Strings.Contains nameLower (Spec.normalize businessName)
        then 500 else 0)
     + PrimFloat.of_uint63 (Uint63.of_nat (size common)) * 100
     + Spec.registryMatchScore Sscanf_f c)%float.
Proof.
  unfold abr.scoreCandidate. cbv zeta. rewrite commonWords_code. reflexivity.
Qed.

Lemma scoreCandidate_passes (businessName : string) (c : Result) :
  is_Some (scoreCandidate businessName c) <-> Spec.passesGates businessName c.
Proof.
  rewrite scoreCandidate_gated. cbv zeta.
  unfold Spec.passesGates, Spec.entityTypeGate, Spec.lexicalOverlapGate, Spec.noiseGate.
  rewrite <- !containsAny_spec.
  destruct (containsAny (Strings.ToLower (LegalName c)) companyKeywords); cbn [negb].
  2:{ split; [intros H; destruct (is_Some_None H) | intros [H _]; discriminate H]. }
  destruct (Nat.eqb_spec (size (Spec.commonWords businessName (LegalName c))) 0) as [Hz | Hnz].
  { split; [intros H; destruct (is_Some_None H)|].
    intros (_ & Hne & _). exfalso. apply Hne.
    apply leibniz_equiv, size_empty_iff. exact Hz. }
  assert (Spec.commonWords businessName (LegalName c) <> ∅) as Hne.
  { intros He. apply Hnz. rewrite He. apply size_empty. }
  destruct (containsAny (Strings.ToLower (LegalName c)) unrelatedKeywords); cbn [andb].
  - destruct (Nat.ltb_spec (size (Spec.commonWords businessName (LegalName c))) 2) as [Hlt | Hge].
    + split; [intros H; destruct (is_Some_None H)|].
      intros (_ & _ & Hnoise). exfalso. apply Hnoise. split; [reflexivity | exact Hlt].
    + split; [|intros _; eexists; reflexivity].
      intros _. split; [reflexivity|]. split; [exact Hne|]. intros [_ Hlt]. lia.
  - split; [|intros _; eexists; reflexivity].
    intros _. split; [reflexivity|]. split; [exact Hne|]. intros [H _]. discriminate H.
Qed.

Lemma scoring_loop (businessName : string) (results : list Result)
    (acc : list (float * Result)) :
  fold_left
    (fun scoredResults result =>
       match scoreCandidate businessName result with
       | None => scoredResults
       | Some totalScore => scoredResults ++ [(totalScore, result)]
       end)
    results acc
  = acc ++ omap (fun r => (fun s => (s, r)) <$> scoreCandidate businessName r) results.
Proof.
  revert acc. induction results as [|r results IH]; intros acc; simpl.
  - rewrite app_nil_r. reflexivity.
  - rewrite IH. destruct (scoreCandidate businessName r); simpl; [|reflexivity].
    rewrite <- app_assoc. reflexivity.
Qed.

Lemma scoreCandidates_omap (businessName : string) (results : list Result) :
  scoreCandidates businessName results
  = omap (fun r => (fun s => (s, r)) <$> scoreCandidate businessName r) results.
Proof. unfold abr.scoreCandidates. rewrite scoring_loop. reflexivity. Qed.

Lemma scoreCandidates_In (businessName : string) (results : list Result)
    (s : float) (c : Result) :
  In (s, c) (scoreCandidates businessName results)
  <-> In c results /\ scoreCandidate businessName c = Some s.
Proof.
  rewrite scoreCandidates_omap, <- list_elem_of_In, list_elem_of_omap. split.
  - intros (r & Hr & Hs). destruct (scoreCandidate businessName r) as [s'|] eqn:E;
      simpl in Hs; [|discriminate Hs].
    injection Hs as -> ->. split; [apply list_elem_of_In; exact Hr | exact E].
  - intros [Hin Hs]. exists c. split; [apply list_elem_of_In; exact Hin|].
    rewrite Hs. reflexivity.
Qed.

Lemma toResult_trimmed (rec : SearchResultsRecord) :
  Strings.TrimSpace (LegalName (toResult rec)) = LegalName (toResult rec).
Proof.
  unfold toResult. simpl.
  repeat match goal with |- context [decide ?P] => destruct (decide P) end;
    apply TrimSpace_idem.
Qed.

Lemma maxStep_fold_In (rest : list (float * Result)) (first : float * Result) :
  In (fold_left maxStep rest first) (first :: rest).
Proof.
  revert first. induction rest as [|x rest IH]; intros first; simpl.
  - left. reflexivity.
  - destruct (IH (maxStep first x)) as [H | H]; [|right; right; exact H].
    rewrite <- H. unfold maxStep. destruct (fst first <? fst x)%float; auto.
Qed.

(** The running maximum ends on the first of the highest scores. *)
Lemma maxStep_fold_max (rest : list (float * Result)) (first : float * Result) :
  (forall sr, In sr (first :: rest) -> PrimFloat.is_nan (fst sr) = false) ->
  exists i,
    (first :: rest) !! i = Some (fold_left maxStep rest first)
    /\ (forall j sr, (first :: rest) !! j = Some sr ->
          (fst sr <=? fst (fold_left maxStep rest first))%float = true)
    /\ (forall j sr, j < i -> (first :: rest) !! j = Some sr ->
          (fst sr <? fst (fold_left maxStep rest first))%float = true).
Proof.
  induction rest as [|x l IH] using rev_ind; intros Hnan.
  - exists 0. simpl. split; [reflexivity|]. split.
    + intros [|j] sr Hj; [|discriminate Hj]. injection Hj as <-.
      apply float_leb_refl, Hnan. left. reflexivity.
    + intros j sr Hlt. lia.
  - rewrite fold_left_app.
    change (fold_left maxStep [x] (fold_left maxStep l first))
      with (maxStep (fold_left maxStep l first) x).
    rewrite app_comm_cons.
    assert (forall sr, In sr (first :: l) -> PrimFloat.is_nan (fst sr) = false) as Hnan'.
    { intros sr Hin. apply Hnan. rewrite app_comm_cons. apply in_or_app. left. exact Hin. }
    assert (PrimFloat.is_nan (fst x) = false) as Hx.
    { apply Hnan. rewrite app_comm_cons. apply in_or_app. right. left. reflexivity. }
    destruct (IH Hnan') as (i & Hi & Hle & Hlt). clear IH.
    set (best := fold_left maxStep l first) in *.
    assert (PrimFloat.is_nan (fst best) = false) as Hbest.
    { apply Hnan'. apply maxStep_fold_In. }
    destruct (fst best <? fst x)%float eqn:E.
    + assert (maxStep best x = x) as -> by (unfold maxStep; rewrite E; reflexivity).
      exists (length (first :: l)). split.
      { apply lookup_snoc_Some. right. split; reflexivity. }
      split.
      * intros j sr Hj. apply lookup_snoc_Some in Hj. destruct Hj as [[_ Hj] | [_ <-]].
        -- apply float_ltb_leb. apply (float_leb_ltb_trans _ (fst best)); [|exact E].
           exact (Hle j sr Hj).
        -- apply float_leb_refl, Hx.
      * intros j sr Hj Hsr. apply lookup_snoc_Some in Hsr. destruct Hsr as [[_ Hsr] | [Hj' _]].
        -- apply (float_leb_ltb_trans _ (fst best)); [|exact E]. exact (Hle j sr Hsr).
        -- lia.
    + assert (maxStep best x = best) as -> by (unfold maxStep; rewrite E; reflexivity).
      exists i. split.
      { apply lookup_snoc_Some. left. split; [|exact Hi]. apply (lookup_lt_Some _ _ _ Hi). }
      split.
      * intros j sr Hj. apply lookup_snoc_Some in Hj. destruct Hj as [[_ Hj] | [_ <-]].
        -- exact (Hle j sr Hj).
        -- apply float_leb_of_not_ltb; assumption.
      * intros j sr Hj Hsr. apply lookup_snoc_Some in Hsr. destruct Hsr as [[_ Hsr] | [Hj' _]].
        -- exact (Hlt j sr Hj Hsr).
        -- pose proof (lookup_lt_Some _ _ _ Hi) as Hlen. lia.
Qed.


(** What [findBestResult] returns is [Result{}] or a scored candidate. *)
Lemma findBestResult_scored (businessName : string) (results : list Result) :
  findBestResult businessName results = emptyResult
  \/ exists s, In (s, findBestResult businessName results)
                 (scoreCandidates businessName results).
Proof.
  unfold abr.findBestResult. destruct (length results =? 0)%nat; [left; reflexivity|].
  destruct (scoreCandidates businessName results) as [|first rest]; [left; reflexivity|].
  right. pose proof (maxStep_fold_In rest first) as Hin.
  destruct (fold_left maxStep rest first) as [s c]. exists s. exact Hin.
Qed.

Lemma companyKeyword_nonempty (keyword : string) :
  In keyword companyKeywords -> keyword <> "".
Proof.
  unfold companyKeywords. simpl. intros H.
  repeat (destruct H as [<- | H]; [discriminate|]). destruct H.
Qed.

Lemma entityTypeGate_nonempty (c : Result) :
  Spec.entityTypeGate c -> LegalName c <> "".
Proof.
  intros (keyword & Hin & Hc) He.
  apply (Contains_nonempty _ _ Hc (companyKeyword_nonempty keyword Hin)).
  rewrite He. reflexivity.
Qed.

(** A ranked candidate other than [Result{}] names a company, so its
    legal name is not empty. *)
Lemma findBestResult_company (businessName : string) (results : list Result) :
  findBestResult businessName results = emptyResult
  \/ (In (findBestResult businessName results) results
      /\ Spec.entityTypeGate (findBestResult businessName results)
      /\ LegalName (findBestResult businessName results) <> "").
Proof.
  destruct (findBestResult_scored businessName results) as [H | [s Hin]]; [left; exact H|].
  right. apply scoreCandidates_In in Hin. destruct Hin as [Hin Hs].
  assert (Spec.passesGates businessName (findBestResult businessName results)) as (Hg & _).
  { apply scoreCandidate_passes. rewrite Hs. eexists. reflexivity. }
  split; [exact Hin|]. split; [exact Hg|]. apply entityTypeGate_nonempty, Hg.
Qed.

End Ranking.


(** ** The two-stage lookup *)

Section Resolver.

Import abr.

Variable World : Type.
Variable registry_Get : string -> World -> (string + string) * World.
Variable xml_Unmarshal : string -> option ABRResponse.
Variable Sscanf_f : string -> option float.

Local Abbreviation searchByName := (abr.searchByName World registry_Get).
Local Abbreviation getAllResults := (abr.getAllResults xml_Unmarshal).
Local Abbreviation findBestResult := (abr.findBestResult Sscanf_f).
Local Abbreviation Lookup := (abr.Lookup World registry_Get xml_Unmarshal Sscanf_f).
Local Abbreviation Lookup_v2 := (abr.Lookup_v2 World registry_Get xml_Unmarshal).

Ltac run_io := unfold mbind, IO_bind, mret, IO_ret.

Lemma searchByName_requests (businessName : string) (n n1 : Net World)
    (r : string + string) :
  searchByName businessName n = (r, n1) -> requests n1 = requests n ++ [businessName].
Proof.
  unfold abr.searchByName. destruct (registry_Get businessName (world n)) as [r' w].
  intros H. injection H as _ <-. reflexivity.
Qed.

Lemma Lookup_search_failed (businessName : string) (n n1 : Net World) (err : string) :
  searchByName businessName n = (inr err, n1) ->
  Lookup businessName n = (Spec.noMatch, n1).
Proof. intros H. unfold abr.Lookup. run_io. rewrite H. reflexivity. Qed.

Lemma Lookup_no_candidate (businessName xmlResponse : string) (n n1 : Net World) :
  searchByName businessName n = (inl xmlResponse, n1) ->
  ABN (findBestResult businessName (getAllResults xmlResponse)) = "" ->
  Lookup businessName n = (Spec.noMatch, n1).
Proof.
  intros H Habn. unfold abr.Lookup. run_io. rewrite H.
  destruct (decide (ABN (findBestResult businessName (getAllResults xmlResponse)) = ""))
    as [_ | Hne]; [reflexivity | contradiction].
Qed.

Lemma Lookup_verified (businessName xmlResponse : string) (n n1 n2 : Net World)
    (r2 : string + string) :
  searchByName businessName n = (inl xmlResponse, n1) ->
  ABN (findBestResult businessName (getAllResults xmlResponse)) <> "" ->
  LegalName (findBestResult businessName (getAllResults xmlResponse)) <> "" ->
  searchByName (LegalName (findBestResult businessName (getAllResults xmlResponse))) n1
    = (r2, n2) ->
  Lookup businessName n
  = (returned
       match r2 with
       | inl xmlResponse2 =>
           scanForABN (getAllResults xmlResponse2)
             (findBestResult businessName (getAllResults xmlResponse))
       | inr _ => findBestResult businessName (getAllResults xmlResponse)
       end, n2).
Proof.
  intros H Habn Hname H2. unfold abr.Lookup. run_io. rewrite H.
  destruct (decide (ABN (findBestResult businessName (getAllResults xmlResponse)) = ""))
    as [He | _]; [contradiction|].
  destruct (decide (LegalName (findBestResult businessName (getAllResults xmlResponse)) = ""))
    as [He | _]; [contradiction|].
  rewrite H2. destruct r2; reflexivity.
Qed.

Lemma Lookup_v2_no_candidate (businessName : string) (n n1 : Net World)
    (r : string + string) :
  searchByName businessName n = (r, n1) ->
  match r with inl xmlResponse => getAllResults xmlResponse = [] | inr _ => True end ->
  Lookup_v2 businessName n = (Spec.noMatch, n1).
Proof.
  intros H Hr. unfold abr.Lookup_v2. run_io. rewrite H.
  destruct r as [xmlResponse | err]; [rewrite Hr|]; reflexivity.
Qed.

(** The second version of [Lookup]: one search, and the first candidate of
    the extractor as it is. *)
Lemma Lookup_v2_first_result (businessName xmlResponse : string) (n n1 : Net World)
    (firstResult : Result) (rest : list Result) :
  searchByName businessName n = (inl xmlResponse, n1) ->
  getAllResults xmlResponse = firstResult :: rest ->
  Lookup_v2 businessName n = (returned firstResult, n1)
  /\ requests n1 = requests n ++ [businessName].
Proof.
  intros H Hres. split; [|exact (searchByName_requests _ _ _ _ H)].
  unfold abr.Lookup_v2. run_io. rewrite H, Hres. reflexivity.
Qed.

(** C2. A transport failure of the first search, or a body that does not
    decode, gives the four empty strings of "no match", the same as a
    response with no record; [Lookup] has no error to return.  Both
    versions of [Lookup] do so. *)
Theorem Lookup_failure_is_no_match (businessName : string) (n n1 : Net World)
    (r : string + string) :
  searchByName businessName n = (r, n1) ->
  (exists err, r = inr err)
  \/ (exists xmlResponse, r = inl xmlResponse /\ xml_Unmarshal xmlResponse = None)
  \/ (exists xmlResponse, r = inl xmlResponse
        /\ xml_Unmarshal xmlResponse = Some {| Records := [] |}) ->
  Lookup businessName n = (Spec.noMatch, n1)
  /\ Lookup_v2 businessName n = (Spec.noMatch, n1).
Proof.
  intros H Hfail.
  assert (match r with inl xmlResponse => getAllResults xmlResponse = [] | inr _ => True end)
    as Hnone.
  { destruct Hfail as [[err ->] | [(xml & -> & Hdec) | (xml & -> & Hdec)]]; [exact I| |].
    - apply getAllResults_undecoded. right. exact Hdec.
    - unfold abr.getAllResults. rewrite Hdec. destruct (decide (xml = "")); reflexivity. }
  split; [|exact (Lookup_v2_no_candidate businessName n n1 r H Hnone)].
  destruct r as [xmlResponse | err].
  - apply (Lookup_no_candidate businessName xmlResponse n n1 H).
    rewrite Hnone. reflexivity.
  - exact (Lookup_search_failed businessName n n1 err H).
Qed.

Lemma scanForABN_found (pre post : list Result) (c bestResult : Result) :
  ABN c = ABN bestResult ->
  (forall p, In p pre -> ABN p <> ABN bestResult) ->
  scanForABN (pre ++ c :: post) bestResult = c.
Proof.
  intros Hc. induction pre as [|p pre IH]; intros Hpre; simpl.
  - destruct (decide (ABN c = ABN bestResult)); [reflexivity | contradiction].
  - destruct (decide (ABN p = ABN bestResult)) as [He | _].
    + exfalso. apply (Hpre p); [left; reflexivity | exact He].
    + apply IH. intros q Hq. apply Hpre. right. exact Hq.
Qed.

Lemma scanForABN_not_found (allResults2 : list Result) (bestResult : Result) :
  (forall c, In c allResults2 -> ABN c <> ABN bestResult) ->
  scanForABN allResults2 bestResult = bestResult.
Proof.
  induction allResults2 as [|c rest IH]; intros Hno; simpl; [reflexivity|].
  destruct (decide (ABN c = ABN bestResult)) as [He | _].
  - exfalso. apply (Hno c); [left; reflexivity | exact He].
  - apply IH. intros q Hq. apply Hno. right. exact Hq.
Qed.


End Resolver.

Lemma Lookup_failure_is_no_match_witness :
  (Demo.Lookup "offline" Demo.net0
   = (Spec.noMatch, {| abr.world := tt; abr.requests := ["offline"] |})
   /\ abr.Lookup_v2 unit Demo.registry_Get Demo.xml_Unmarshal "offline" Demo.net0
      = (Spec.noMatch, {| abr.world := tt; abr.requests := ["offline"] |}))
  /\ (Demo.Lookup "garbled" Demo.net0
      = (Spec.noMatch, {| abr.world := tt; abr.requests := ["garbled"] |})
      /\ abr.Lookup_v2 unit Demo.registry_Get Demo.xml_Unmarshal "garbled" Demo.net0
         = (Spec.noMatch, {| abr.world := tt; abr.requests := ["garbled"] |})).
Proof.
  split.
  - apply (Lookup_failure_is_no_match unit Demo.registry_Get Demo.xml_Unmarshal
             Demo.Sscanf_f "offline" Demo.net0 _ (inr "timeout")).
    + reflexivity.
    + left. exists "timeout". reflexivity.
  - apply (Lookup_failure_is_no_match unit Demo.registry_Get Demo.xml_Unmarshal
             Demo.Sscanf_f "garbled" Demo.net0 _ (inl "garbled")).
    + reflexivity.
    + right. left. exists "garbled". split; reflexivity.
Defined.


(** ** The server's cache *)

Section Cache.

Import abr server.

Variable World : Type.
Variable registry_Get : string -> World -> (string + string) * World.
Variable xml_Unmarshal : string -> option ABRResponse.
Variable google_ExtractMerchantInfo : string -> World -> google.MerchantInfo * World.

Local Abbreviation GetAllResults := (abr.GetAllResults World registry_Get xml_Unmarshal).
Local Abbreviation ExtractMerchantInfo :=
  (server.ExtractMerchantInfo World google_ExtractMerchantInfo).
Local Abbreviation handleMerchantAPI :=
  (server.handleMerchantAPI World registry_Get xml_Unmarshal google_ExtractMerchantInfo).
Local Abbreviation stepThread :=
  (server.stepThread World registry_Get xml_Unmarshal google_ExtractMerchantInfo).
Local Abbreviation step :=
  (server.step World registry_Get xml_Unmarshal google_ExtractMerchantInfo).
Local Abbreviation run :=
  (server.run World registry_Get xml_Unmarshal google_ExtractMerchantInfo).
Local Abbreviation searched := (server.searched World).

Ltac run_io := unfold mbind, IO_bind, mret, IO_ret.

Lemma GetAllResults_requests (merchantName : string) (n : Net World) :
  requests (snd (GetAllResults merchantName n)) = requests n ++ [merchantName].
Proof.
  unfold abr.GetAllResults, abr.searchByName. run_io.
  destruct (registry_Get merchantName (world n)) as [[xmlResponse | err] w]; reflexivity.
Qed.

Lemma ExtractMerchantInfo_requests (merchantName : string) (n : Net World) :
  requests (snd (ExtractMerchantInfo merchantName n)) = requests n.
Proof.
  unfold server.ExtractMerchantInfo.
  destruct (google_ExtractMerchantInfo merchantName (world n)); reflexivity.
Qed.

(** The handler on a name that is not a row of the results: 404, and
    neither the cache nor the network is touched. *)
Lemma handle_unknown (s : Server) (path : string) (n : Net World) :
  results s !! merchantNameOf path = None ->
  handleMerchantAPI s path n = (NotFound, s, n).
Proof. intros H. unfold server.handleMerchantAPI. rewrite H. reflexivity. Qed.

(** The handler on a cached name: the stored result, and no I/O. *)
Lemma handle_hit (s : Server) (path : string) (n : Net World)
    (row cachedResult : MerchantResult) :
  results s !! merchantNameOf path = Some row ->
  cache s !! merchantNameOf path = Some cachedResult ->
  handleMerchantAPI s path n = (OK cachedResult, s, n).
Proof. intros H1 H2. unfold server.handleMerchantAPI. rewrite H1, H2. reflexivity. Qed.

(** The handler on a known name that is not cached: one registry search,
    one Google search, and the result stored under the name. *)
Lemma handle_miss (s : Server) (path : string) (n : Net World) (row : MerchantResult) :
  results s !! merchantNameOf path = Some row ->
  cache s !! merchantNameOf path = None ->
  exists result n1,
    handleMerchantAPI s path n = (OK result, store s (merchantNameOf path) result, n1)
    /\ requests n1 = requests n ++ [merchantNameOf path].
Proof.
  intros H1 H2. unfold server.handleMerchantAPI. rewrite H1, H2. run_io.
  pose proof (GetAllResults_requests (merchantNameOf path) n) as Hreq.
  destruct (GetAllResults (merchantNameOf path) n) as [allResults n'].
  pose proof (ExtractMerchantInfo_requests (merchantNameOf path) n') as Hreq'.
  destruct (ExtractMerchantInfo (merchantNameOf path) n') as [googleInfo n''].
  eexists _, _. split; [reflexivity|]. simpl in *. congruence.
Qed.

(** C8, as the code has it.  The cache key is the name read off the
    request path, byte for byte: two requests are served from the same cache
    entry when their names are equal, and a request for one name leaves the
    entry of every other name as it was. *)
Theorem cache_key_is_exact_name (s : Server) (path1 path2 : string) (n : Net World) :
  (merchantNameOf path1 = merchantNameOf path2 ->
     handleMerchantAPI s path1 n = handleMerchantAPI s path2 n)
  /\ (merchantNameOf path1 <> merchantNameOf path2 ->
      cache (snd (fst (handleMerchantAPI s path1 n))) !! merchantNameOf path2
      = cache s !! merchantNameOf path2).
Proof.
  split.
  - intros H. unfold server.handleMerchantAPI. rewrite H. reflexivity.
  - intros Hne.
    destruct (results s !! merchantNameOf path1) as [row|] eqn:H1;
      [|rewrite (handle_unknown s path1 n H1); reflexivity].
    destruct (cache s !! merchantNameOf path1) as [v|] eqn:H2;
      [rewrite (handle_hit s path1 n row v H1 H2); reflexivity|].
    destruct (handle_miss s path1 n row H1 H2) as (result & n1 & -> & _).
    simpl. apply lookup_insert_ne. exact Hne.
Qed.

(** C9, as the code has it.  For a name that is a row of the results and is
    not cached, two requests in sequence make one registry search: the second
    is answered with the stored result of the first and changes neither the
    network nor the server. *)
Theorem second_request_served_from_cache (s s1 s2 : Server) (path : string)
    (n n1 n2 : Net World) (row : MerchantResult) (resp1 resp2 : Response) :
  results s !! merchantNameOf path = Some row ->
  cache s !! merchantNameOf path = None ->
  handleMerchantAPI s path n = (resp1, s1, n1) ->
  handleMerchantAPI s1 path n1 = (resp2, s2, n2) ->
  requests n1 = requests n ++ [merchantNameOf path]
  /\ n2 = n1 /\ s2 = s1 /\ resp2 = resp1
  /\ exists result, resp1 = OK result /\ cache s1 !! merchantNameOf path = Some result.
Proof.
  intros H1 H2 Hfirst Hsecond.
  destruct (handle_miss s path n row H1 H2) as (result & n' & Heq & Hreq).
  rewrite Heq in Hfirst. injection Hfirst as <- <- <-.
  assert (cache (store s (merchantNameOf path) result) !! merchantNameOf path = Some result)
    as Hc by apply lookup_insert_eq.
  rewrite (handle_hit (store s (merchantNameOf path) result) path n' row result H1 Hc)
    in Hsecond.
  injection Hsecond as <- <- <-.
  split; [exact Hreq|]. repeat split; try reflexivity.
  exists result. split; [reflexivity | exact Hc].
Qed.

Lemma step_alone (t : Thread) (s : Server) (n : Net World) :
  step 0 {| srv := s; net := n; threads := [t] |}
  = let '(t', s', n') := stepThread t s n in
    {| srv := s'; net := n'; threads := [t'] |}.
Proof. reflexivity. Qed.

(** One request that runs alone is the handler. *)
Lemma handle_as_thread (s : Server) (path : string) (n : Net World) :
  exists resp,
    threads (run [0; 0; 0; 0] (arrive World s n 1 path)) = [Replied resp]
    /\ handleMerchantAPI s path n
       = (resp, srv (run [0; 0; 0; 0] (arrive World s n 1 path)),
          net (run [0; 0; 0; 0] (arrive World s n 1 path))).
Proof.
  unfold server.run, server.arrive, server.handleMerchantAPI.
  cbn [fold_left replicate]. rewrite step_alone. cbn [server.stepThread].
  destruct (results s !! merchantNameOf path) as [row|].
  2:{ rewrite !step_alone. cbn [server.stepThread]. eexists. split; reflexivity. }
  destruct (cache s !! merchantNameOf path) as [v|].
  { rewrite !step_alone. cbn [server.stepThread]. eexists. split; reflexivity. }
  run_io. rewrite step_alone. cbn [server.stepThread].
  destruct (GetAllResults (merchantNameOf path) n) as [allResults n'].
  rewrite step_alone. cbn [server.stepThread].
  destruct (ExtractMerchantInfo (merchantNameOf path) n') as [googleInfo n''].
  rewrite step_alone. cbn [server.stepThread].
  eexists. split; reflexivity.
Qed.

Lemma countPast_insert (ts : list Thread) (i : nat) (t t' : Thread) :
  ts !! i = Some t ->
  countPast (<[i := t']> ts) + (if pastSearch t then 1 else 0)
  = countPast ts + (if pastSearch t' then 1 else 0).
Proof.
  unfold countPast. revert i. induction ts as [|u ts IH]; intros i Hi; [discriminate Hi|].
  destruct i as [|i]; simpl in *.
  - injection Hi as ->. destruct (pastSearch t), (pastSearch t'); simpl; lia.
  - specialize (IH i Hi). destruct (pastSearch u); simpl; lia.
Qed.

Lemma countPast_le_length (ts : list Thread) : countPast ts <= length ts.
Proof. unfold countPast. apply filter_length_le. Qed.

Lemma countPast_replied (ts : list Thread) :
  Forall (fun t => isReplied t = true) ts -> countPast ts = length ts.
Proof.
  unfold countPast. induction 1 as [|t ts Ht _ IH]; [reflexivity|].
  destruct t; try discriminate Ht. simpl. rewrite IH. reflexivity.
Qed.

Lemma countPast_arrived (N : nat) (path : string) :
  countPast (replicate N (Arrived path)) = 0.
Proof. unfold countPast. induction N as [|N IH]; [reflexivity | exact IH]. Qed.

Lemma searched_arrive (s : Server) (n : Net World) (N : nat) (path : string)
    (row : MerchantResult) :
  results s !! merchantNameOf path = Some row ->
  cache s !! merchantNameOf path = None ->
  searched (merchantNameOf path) row n N (arrive World s n N path) 0.
Proof.
  intros H1 H2. unfold server.searched, server.arrive. simpl.
  rewrite countPast_arrived, app_nil_r, length_replicate.
  repeat split; try assumption; try reflexivity.
  - apply Forall_replicate. reflexivity.
  - intros [H | H]; [contradiction | lia].
Qed.

Lemma searched_step (merchantName : string) (row : MerchantResult) (n0 : Net World)
    (N i : nat) (σ : System World) (k : nat) :
  searched merchantName row n0 N σ k ->
  exists k', searched merchantName row n0 N (step i σ) k'.
Proof.
  intros (Hrow & Hreq & Hlen & Hall & Hle & Hge). unfold server.step.
  destruct (threads σ !! i) as [t|] eqn:Hi; [|exists k; repeat split; assumption].
  pose proof (Forall_lookup_1 _ _ _ _ Hall Hi) as Ht.
  destruct t as [path | m result | m result | m result | resp];
    simpl in Ht; subst; cbn [server.stepThread].
  - rewrite Hrow. destruct (cache (srv σ) !! merchantNameOf path) as [v|] eqn:Hc.
    + pose proof (countPast_insert (threads σ) i (Arrived path) (Replied (OK v)) Hi) as Hcnt.
      exists k. unfold server.searched. cbn [srv net threads]. simpl in Hcnt.
      split; [exact Hrow|]. split; [exact Hreq|].
      split; [rewrite length_insert; reflexivity|].
      split; [apply Forall_insert; [exact Hall | discriminate]|].
      split; [lia|].
      intros _. apply Hge. left. discriminate.
    + pose proof (countPast_insert (threads σ) i (Arrived path)
                    (Missed (merchantNameOf path) row) Hi) as Hcnt.
      exists k. unfold server.searched. cbn [srv net threads]. simpl in Hcnt.
      split; [exact Hrow|]. split; [exact Hreq|].
      split; [rewrite length_insert; reflexivity|].
      split; [apply Forall_insert; [exact Hall | reflexivity]|].
      split; [lia|].
      intros [H | H]; [rewrite Hc in H; contradiction | apply Hge; right; lia].
  - pose proof (GetAllResults_requests merchantName (net σ)) as Hreq'.
    destruct (GetAllResults merchantName (net σ)) as [allResults n'].
    pose proof (countPast_insert (threads σ) i (Missed merchantName result)
                  (GotABN merchantName (withABN result allResults)) Hi) as Hcnt.
    exists (S k). unfold server.searched. cbn [srv net threads]. simpl in Hcnt, Hreq'.
    split; [exact Hrow|].
    split.
    { rewrite Hreq', Hreq, <- app_assoc. f_equal.
      change [merchantName] with (replicate 1 merchantName).
      rewrite <- replicate_add. f_equal. lia. }
    split; [rewrite length_insert; reflexivity|].
    split; [apply Forall_insert; [exact Hall | reflexivity]|].
    split; [lia|].
    intros _. lia.
  - pose proof (ExtractMerchantInfo_requests merchantName (net σ)) as Hreq'.
    destruct (ExtractMerchantInfo merchantName (net σ)) as [googleInfo n'].
    pose proof (countPast_insert (threads σ) i (GotABN merchantName result)
                  (GotGoogle merchantName (withGoogle result googleInfo)) Hi) as Hcnt.
    exists k. unfold server.searched. cbn [srv net threads]. simpl in Hcnt, Hreq'.
    split; [exact Hrow|].
    split; [rewrite Hreq'; exact Hreq|].
    split; [rewrite length_insert; reflexivity|].
    split; [apply Forall_insert; [exact Hall | reflexivity]|].
    split; [lia|].
    intros [H | H]; apply Hge; [left; exact H | right; lia].
  - pose proof (countPast_insert (threads σ) i (GotGoogle merchantName result)
                  (Replied (OK result)) Hi) as Hcnt.
    exists k. unfold server.searched. cbn [srv net threads]. simpl in Hcnt.
    split; [exact Hrow|]. split; [exact Hreq|].
    split; [rewrite length_insert; reflexivity|].
    split; [apply Forall_insert; [exact Hall | discriminate]|].
    split; [lia|].
    intros _. apply Hge. right.
    pose proof (countPast_insert (threads σ) i (GotGoogle merchantName result)
                  (Arrived "") Hi) as Hpos.
    simpl in Hpos. lia.
  - exists k. rewrite (list_insert_id _ _ _ Hi). repeat split; assumption.
Qed.

Lemma searched_run (merchantName : string) (row : MerchantResult) (n0 : Net World)
    (N : nat) (schedule : list nat) (σ : System World) (k : nat) :
  searched merchantName row n0 N σ k ->
  exists k', searched merchantName row n0 N (run schedule σ) k'.
Proof.
  revert σ k. induction schedule as [|i schedule IH]; intros σ k H; simpl.
  - exists k. exact H.
  - destruct (searched_step merchantName row n0 N i σ k H) as [k1 H1].
    exact (IH _ k1 H1).
Qed.


End Cache.



(** C8 fails on the code: ["Apple"] and ["apple"] normalize to the same
    name, yet the two requests are two registry searches and two cache
    entries. *)
Lemma cache_key_counterexample :
  Spec.normalize "Apple" = Spec.normalize "apple"
  /\ server.merchantNameOf "/api/merchant/Apple" <> server.merchantNameOf "/api/merchant/apple"
  /\ abr.requests
       (snd (Demo.twoRequests Demo.server2 "/api/merchant/Apple" "/api/merchant/apple"
               Demo.net0))
     = ["Apple"; "apple"]
  /\ size (server.cache
             (snd (fst (Demo.twoRequests Demo.server2 "/api/merchant/Apple"
                          "/api/merchant/apple" Demo.net0))))
     = 2.
Proof.
  split; [reflexivity|]. split; [vm_compute; discriminate|].
  split; vm_compute; reflexivity.
Qed.

Lemma cache_key_is_exact_name_witness :
  Demo.handleMerchantAPI Demo.server2 "/api/merchant/Apple" Demo.net0
  = Demo.handleMerchantAPI Demo.server2 "/api/merchant/Apple/" Demo.net0
  /\ server.cache
       (snd (fst (Demo.handleMerchantAPI Demo.server2 "/api/merchant/Apple" Demo.net0)))
     !! server.merchantNameOf "/api/merchant/apple"
     = server.cache Demo.server2 !! server.merchantNameOf "/api/merchant/apple".
Proof.
  split.
  - apply (cache_key_is_exact_name unit Demo.registry_Get Demo.xml_Unmarshal
             Demo.google_ExtractMerchantInfo Demo.server2
             "/api/merchant/Apple" "/api/merchant/Apple/" Demo.net0).
    reflexivity.
  - apply (cache_key_is_exact_name unit Demo.registry_Get Demo.xml_Unmarshal
             Demo.google_ExtractMerchantInfo Demo.server2
             "/api/merchant/Apple" "/api/merchant/apple" Demo.net0).
    vm_compute. discriminate.
Defined.

(** C9 fails on the code: a name that is not a row of the results is
    answered 404 twice, and the registry is never searched. *)
Lemma two_requests_counterexample :
  Demo.twoRequests Demo.server0 "/api/merchant/Nobody" "/api/merchant/Nobody" Demo.net0
  = (server.NotFound, server.NotFound, Demo.server0, Demo.net0)
  /\ abr.requests Demo.net0 = [].
Proof. split; reflexivity. Qed.

Lemma second_request_served_from_cache_witness :
  Demo.twoRequests Demo.server0 "/api/merchant/Apple" "/api/merchant/Apple" Demo.net0
  = (fst (fst (Demo.handleMerchantAPI Demo.server0 "/api/merchant/Apple" Demo.net0)),
     fst (fst (Demo.handleMerchantAPI Demo.server0 "/api/merchant/Apple" Demo.net0)),
     snd (fst (Demo.handleMerchantAPI Demo.server0 "/api/merchant/Apple" Demo.net0)),
     snd (Demo.handleMerchantAPI Demo.server0 "/api/merchant/Apple" Demo.net0))
  /\ abr.requests
       (snd (Demo.twoRequests Demo.server0 "/api/merchant/Apple" "/api/merchant/Apple"
               Demo.net0))
     = ["Apple"].
Proof.
  unfold Demo.twoRequests.
  destruct (Demo.handleMerchantAPI Demo.server0 "/api/merchant/Apple" Demo.net0)
    as [[resp1 s1] n1] eqn:H1.
  destruct (Demo.handleMerchantAPI s1 "/api/merchant/Apple" n1) as [[resp2 s2] n2] eqn:H2.
  destruct (second_request_served_from_cache unit Demo.registry_Get Demo.xml_Unmarshal
              Demo.google_ExtractMerchantInfo Demo.server0 s1 s2 "/api/merchant/Apple"
              Demo.net0 n1 n2 Demo.appleRow resp1 resp2)
    as (Hreq & -> & -> & -> & _).
  - reflexivity.
  - reflexivity.
  - exact H1.
  - exact H2.
  - split; [reflexivity | exact Hreq].
Defined.

(** * Further properties of the code *)

(** ** Extraction and ranking *)

Lemma toLower_idem (c : ascii) : Strings.toLower (Strings.toLower c) = Strings.toLower c.
Proof. destruct c as [[] [] [] [] [] [] [] []]; reflexivity. Qed.

Lemma ToLower_idem (s : string) : Strings.ToLower (Strings.ToLower s) = Strings.ToLower s.
Proof.
  induction s as [|c s IH]; simpl; [reflexivity|]. rewrite toLower_idem, IH. reflexivity.
Qed.

Lemma normalize_ToLower (s : string) : Spec.normalize (Strings.ToLower s) = Spec.normalize s.
Proof. unfold Spec.normalize. rewrite <- ToLower_TrimSpace. apply ToLower_idem. Qed.

Lemma normalize_TrimSpace (s : string) : Spec.normalize (Strings.TrimSpace s) = Spec.normalize s.
Proof. unfold Spec.normalize. rewrite TrimSpace_idem. reflexivity. Qed.

Section Matching.

Import abr.

Variable World : Type.
Variable registry_Get : string -> World -> (string + string) * World.
Variable xml_Unmarshal : string -> option ABRResponse.
Variable Sscanf_f : string -> option float.

Local Abbreviation searchByName := (abr.searchByName World registry_Get).
Local Abbreviation getAllResults := (abr.getAllResults xml_Unmarshal).
Local Abbreviation scoreCandidate := (abr.scoreCandidate Sscanf_f).
Local Abbreviation scoreCandidates := (abr.scoreCandidates Sscanf_f).
Local Abbreviation findBestResult := (abr.findBestResult Sscanf_f).
Local Abbreviation Lookup := (abr.Lookup World registry_Get xml_Unmarshal Sscanf_f).
Local Abbreviation Lookup_v2 := (abr.Lookup_v2 World registry_Get xml_Unmarshal).
Local Abbreviation VerifyABN := (abr.VerifyABN World registry_Get xml_Unmarshal).

Ltac run_io := unfold mbind, IO_bind, mret, IO_ret.

(** X1. Every field of every candidate of the extractor is trimmed: a
    second [TrimSpace] changes none of them. *)
Theorem getAllResults_fields_trimmed (xmlText : string) (c : Result) :
  In c (getAllResults xmlText) ->
  Strings.TrimSpace (ABN c) = ABN c
  /\ Strings.TrimSpace (State c) = State c
  /\ Strings.TrimSpace (LegalName c) = LegalName c
  /\ Strings.TrimSpace (Score c) = Score c.
Proof.
  intros Hin. destruct (getAllResults_from_record xml_Unmarshal xmlText c Hin) as (rec & _ & ->).
  split; [apply TrimSpace_idem|]. split; [apply TrimSpace_idem|].
  split; [apply toResult_trimmed|].
  unfold toResult. simpl.
  destruct (decide (Strings.TrimSpace (BusinessName_Score rec) = "")); apply TrimSpace_idem.
Qed.

Lemma scoreCandidates_empty_iff (businessName : string) (results : list Result) :
  scoreCandidates businessName results = []
  <-> forall c, In c results -> ~ Spec.passesGates businessName c.
Proof.
  split.
  - intros He c Hin Hpass. apply (scoreCandidate_passes Sscanf_f) in Hpass.
    destruct Hpass as [s Hs].
    assert (In (s, c) (scoreCandidates businessName results)) as H.
    { apply scoreCandidates_In. split; assumption. }
    rewrite He in H. destruct H.
  - intros Hno. destruct (scoreCandidates businessName results) as [|[s c] rest] eqn:E;
      [reflexivity|].
    assert (In (s, c) (scoreCandidates businessName results)) as H
      by (rewrite E; left; reflexivity).
    apply scoreCandidates_In in H. destruct H as [Hin Hs].
    exfalso. apply (Hno c Hin). apply (scoreCandidate_passes Sscanf_f).
    rewrite Hs. eexists. reflexivity.
Qed.

Lemma scoreCandidate_normalized (businessName businessName' : string) (c : Result) :
  Spec.normalize businessName = Spec.normalize businessName' ->
  scoreCandidate businessName c = scoreCandidate businessName' c.
Proof.
  intros H. unfold abr.scoreCandidate.
  change (Strings.ToLower (Strings.TrimSpace businessName))
    with (Spec.normalize businessName).
  change (Strings.ToLower (Strings.TrimSpace businessName'))
    with (Spec.normalize businessName').
  rewrite H. reflexivity.
Qed.

(** X3. The ranking reads the input name only through its lower-cased,
    trimmed form: two names that normalize to the same text select the same
    candidate from any result list. *)
Theorem findBestResult_input_normalized (businessName businessName' : string)
    (results : list Result) :
  Spec.normalize businessName = Spec.normalize businessName' ->
  findBestResult businessName results = findBestResult businessName' results.
Proof.
  intros H. unfold abr.findBestResult.
  assert (scoreCandidates businessName results = scoreCandidates businessName' results)
    as ->; [|reflexivity].
  rewrite !scoreCandidates_omap. apply list_omap_ext, Forall_Forall2_diag, Forall_forall.
  intros c _. rewrite (scoreCandidate_normalized _ _ c H). reflexivity.
Qed.

Lemma blank_name_no_overlap (businessName : string) (c : Result) :
  Strings.TrimSpace businessName = "" -> ~ Spec.passesGates businessName c.
Proof.
  intros Hblank (_ & Hoverlap & _). apply Hoverlap.
  unfold Spec.commonWords, Spec.tokenize.
  rewrite <- (Fields_TrimSpace (Strings.ToLower businessName)), <- ToLower_TrimSpace, Hblank.
  simpl. apply (left_absorb_L ∅ (∩)).
Qed.

(** X4. An input name that is empty or all spaces never matches: the
    ranking returns [Result{}] for every result list, and [Lookup] returns
    the four empty strings after its one search. *)
Theorem blank_name_never_matches (businessName : string) :
  Strings.TrimSpace businessName = "" ->
  (forall results, findBestResult businessName results = emptyResult)
  /\ (forall n,
        fst (Lookup businessName n) = Spec.noMatch
        /\ requests (snd (Lookup businessName n)) = requests n ++ [businessName]).
Proof.
  intros Hblank.
  assert (forall results, findBestResult businessName results = emptyResult) as Hnone.
  { intros results. unfold abr.findBestResult.
    rewrite (proj2 (scoreCandidates_empty_iff businessName results)).
    - destruct (length results =? 0)%nat; reflexivity.
    - intros c _. apply blank_name_no_overlap, Hblank. }
  split; [exact Hnone|]. intros n.
  destruct (searchByName businessName n) as [r n1] eqn:H1.
  pose proof (searchByName_requests _ _ _ _ _ _ H1) as Hreq.
  destruct r as [xmlResponse | err].
  - rewrite (Lookup_no_candidate _ _ _ Sscanf_f _ _ _ _ H1); [split; [reflexivity | exact Hreq]|].
    rewrite Hnone. reflexivity.
  - rewrite (Lookup_search_failed _ _ xml_Unmarshal Sscanf_f _ _ _ _ H1).
    split; [reflexivity | exact Hreq].
Qed.

Lemma scanForABN_ABN (allResults2 : list Result) (bestResult : Result) :
  ABN (scanForABN allResults2 bestResult) = ABN bestResult.
Proof.
  induction allResults2 as [|c rest IH]; simpl; [reflexivity|].
  destruct (decide (ABN c = ABN bestResult)) as [He | _]; [exact He | exact IH].
Qed.

(** The two ways [Lookup] ends. *)
Lemma Lookup_outcome (businessName : string) (n : Net World) :
  (fst (Lookup businessName n) = Spec.noMatch
   /\ requests (snd (Lookup businessName n)) = requests n ++ [businessName])
  \/ (exists xmlResponse n1 final,
        searchByName businessName n = (inl xmlResponse, n1)
        /\ In (findBestResult businessName (getAllResults xmlResponse))
             (getAllResults xmlResponse)
        /\ LegalName (findBestResult businessName (getAllResults xmlResponse)) <> ""
        /\ fst (Lookup businessName n) = returned final
        /\ ABN final = ABN (findBestResult businessName (getAllResults xmlResponse))
        /\ requests (snd (Lookup businessName n))
           = requests n
             ++ [businessName;
                 LegalName (findBestResult businessName (getAllResults xmlResponse))]).
Proof.
  destruct (searchByName businessName n) as [r n1] eqn:H1.
  pose proof (searchByName_requests _ _ _ _ _ _ H1) as Hreq1.
  destruct r as [xmlResponse | err].
  2:{ left. rewrite (Lookup_search_failed _ _ xml_Unmarshal Sscanf_f _ _ _ _ H1).
      split; [reflexivity | exact Hreq1]. }
  destruct (decide (ABN (findBestResult businessName (getAllResults xmlResponse)) = ""))
    as [Habn | Habn].
  { left. rewrite (Lookup_no_candidate _ _ _ Sscanf_f _ _ _ _ H1 Habn).
    split; [reflexivity | exact Hreq1]. }
  right.
  destruct (findBestResult_company Sscanf_f businessName (getAllResults xmlResponse))
    as [He | (Hin & _ & Hname)].
  { exfalso. apply Habn. rewrite He. reflexivity. }
  destruct (searchByName
              (LegalName (findBestResult businessName (getAllResults xmlResponse))) n1)
    as [r2 n2] eqn:H2.
  pose proof (searchByName_requests _ _ _ _ _ _ H2) as Hreq2.
  exists xmlResponse, n1. eexists.
  rewrite (Lookup_verified _ _ _ Sscanf_f _ _ _ _ _ _ H1 Habn Hname H2).
  split; [reflexivity|]. split; [exact Hin|]. split; [exact Hname|].
  split; [reflexivity|]. split.
  - destruct r2; [apply scanForABN_ABN | reflexivity].
  - simpl. rewrite Hreq2, Hreq1, <- app_assoc. reflexivity.
Qed.


(** X6. [Lookup] searches the registry once when it returns no match and
    twice when it returns a match: first for the input name, then for the
    legal name of the ranked candidate, which is not empty. *)
Theorem Lookup_search_count (businessName : string) (n : Net World) :
  (fst (Lookup businessName n) = Spec.noMatch
   /\ requests (snd (Lookup businessName n)) = requests n ++ [businessName])
  \/ (fst (Lookup businessName n) <> Spec.noMatch
      /\ exists legalName,
           legalName <> ""
           /\ requests (snd (Lookup businessName n))
              = requests n ++ [businessName; legalName]).
Proof.
  destruct (Lookup_outcome businessName n)
    as [H | (xml & n1 & final & H1 & Hin & Hname & Hret & Habn & Hreq)]; [left; exact H|].
  right. split.
  - rewrite Hret. intros He. injection He as He _ _ _.
    destruct (getAllResults_from_record xml_Unmarshal xml _ Hin) as (rec & [[Hlen _] _] & Hrec).
    rewrite Habn, Hrec in He. simpl in He. rewrite He in Hlen. discriminate Hlen.
  - eexists. split; [exact Hname | exact Hreq].
Qed.


(** X8. [VerifyABN] answers false for an ABN that is not eleven digits
    without searching the registry. *)
Theorem VerifyABN_malformed (abn legalName state : string) (n : Net World) :
  ~ Spec.isABN abn -> VerifyABN abn legalName state n = (false, n).
Proof.
  intros Hbad. unfold abr.VerifyABN.
  destruct (Regexp.MatchString abnRegex abn) eqn:E; [|reflexivity].
  exfalso. apply Hbad, abnRegex_spec, E.
Qed.

Lemma verifyScan_true_iff (results : list Result) (abn state : string) :
  verifyScan results abn state = true
  <-> exists pre c post,
        results = pre ++ c :: post
        /\ ABN c = abn
        /\ (forall p, In p pre -> ABN p <> abn)
        /\ (state = "" \/ State c = state).
Proof.
  induction results as [|r rest IH]; simpl.
  - split; [intros H; discriminate H|].
    intros (pre & c & post & H & _). destruct pre; discriminate H.
  - destruct (decide (ABN r = abn)) as [Hr | Hr].
    + destruct (decide (state <> "" /\ State r <> state)) as [[Hs1 Hs2] | Hs].
      * split; [intros H; discriminate H|].
        intros ([|p pre] & c & post & H & Hc & Hpre & Hst).
        -- injection H as <- _. destruct Hst; contradiction.
        -- injection H as <- _. exfalso. apply (Hpre r); [left; reflexivity | exact Hr].
      * split; [|reflexivity]. intros _. exists [], r, rest.
        split; [reflexivity|]. split; [exact Hr|]. split; [intros p []|].
        destruct (decide (state = "")) as [He | Hne]; [left; exact He|].
        right. destruct (decide (State r = state)) as [He | Hne']; [exact He|].
        exfalso. apply Hs. split; assumption.
    + rewrite IH. split.
      * intros (pre & c & post & -> & Hc & Hpre & Hst).
        exists (r :: pre), c, post. split; [reflexivity|]. split; [exact Hc|].
        split; [|exact Hst]. intros p [<- | Hp]; [exact Hr | apply Hpre, Hp].
      * intros ([|p pre] & c & post & H & Hc & Hpre & Hst).
        -- injection H as <- _. contradiction.
        -- injection H as <- ->. exists pre, c, post.
           split; [reflexivity|]. split; [exact Hc|]. split; [|exact Hst].
           intros q Hq. apply Hpre. right. exact Hq.
Qed.


End Matching.

(** ** Loading the results file *)

Section Loading.

Import server.

Lemma loadedRow_five (record : list string) :
  length record = 5 -> loadedRow record = None.
Proof.
  destruct record as [|a [|b [|c [|d [|e [|f rest]]]]]]; simpl; intros H;
    try discriminate H; reflexivity.
Qed.

Lemma loadedRow_long (record : list string) :
  6 <= length record ->
  exists r0 r1 r2 r3 r5,
    record !! 0 = Some r0 /\ record !! 1 = Some r1 /\ record !! 2 = Some r2
    /\ record !! 3 = Some r3 /\ record !! 5 = Some r5
    /\ loadedRow record
       = Some {| Name := r0; GoogleLegalName := ""; GoogleState := "";
                 GooglePostcode := ""; ABNFound := r1; ABNLegalName := r3;
                 ABNState := r2; Verified := r5; ABNCount := 0;
                 AllABNResults := [] |}.
Proof.
  destruct record as [|a [|b [|c [|d [|e [|f rest]]]]]]; simpl; intros H; try lia.
  exists a, b, c, d, f. repeat split; reflexivity.
Qed.

Lemma loadRecords_app (pre post : list (list string))
    (results : gmap string MerchantResult) :
  loadRecords (pre ++ post) results
  = match loadRecords pre results with
    | Some loaded => loadRecords post loaded
    | None => None
    end.
Proof.
  revert results. induction pre as [|record pre IH]; intros results; simpl; [reflexivity|].
  destruct (length record <? 5)%nat; [apply IH|].
  destruct (record !! 0) as [r0|]; [|reflexivity].
  destruct (loadedRow record) as [row|]; [apply IH | reflexivity].
Qed.

Lemma loadRecords_panic_iff (records : list (list string))
    (results : gmap string MerchantResult) :
  loadRecords records results = None
  <-> exists record, In record records /\ length record = 5.
Proof.
  revert results. induction records as [|record records IH]; intros results; simpl.
  - split; [intros H; discriminate H | intros (r & [] & _)].
  - destruct (Nat.ltb_spec (length record) 5) as [Hlt | Hge].
    + rewrite IH. split.
      * intros (r & Hin & Hr). exists r. split; [right; exact Hin | exact Hr].
      * intros (r & [<- | Hin] & Hr); [lia|]. exists r. split; assumption.
    + destruct (decide (length record = 5)) as [H5 | H5].
      * rewrite (loadedRow_five record H5).
        split; [|destruct (record !! 0); reflexivity].
        intros _. exists record. split; [left; reflexivity | exact H5].
      * destruct (loadedRow_long record) as (r0 & r1 & r2 & r3 & r5 & -> & _ & _ & _ & _ & ->);
          [lia|].
        rewrite IH. split.
        -- intros (r & Hin & Hr). exists r. split; [right; exact Hin | exact Hr].
        -- intros (r & [<- | Hin] & Hr); [contradiction|]. exists r. split; assumption.
Qed.

(** X10. [LoadResults] panics exactly when the file has no record at all
    (the slice past the header is out of range) or a record after the header
    has exactly five fields (the length test lets it through and
    [record[5]] is out of range). *)
Theorem LoadResults_panic_iff (records : list (list string)) (s : Server) :
  LoadResults (inl records) s = LoadPanic
  <-> records = []
      \/ exists record, In record (tail records) /\ length record = 5.
Proof.
  unfold LoadResults. destruct records as [|hdr records]; simpl.
  - split; [left; reflexivity | reflexivity].
  - rewrite <- (loadRecords_panic_iff records (results s)).
    destruct (loadRecords records (results s)); split.
    + intros H. discriminate H.
    + intros [H | H]; discriminate H.
    + intros _. right. reflexivity.
    + reflexivity.
Qed.

Lemma loadRecords_untouched (records : list (list string))
    (results loaded : gmap string MerchantResult) (k : string) :
  loadRecords records results = Some loaded ->
  (forall r, In r records -> 5 <= length r -> r !! 0 <> Some k) ->
  loaded !! k = results !! k.
Proof.
  revert results. induction records as [|record records IH]; intros results Hload Hno;
    simpl in Hload.
  - injection Hload as <-. reflexivity.
  - destruct (Nat.ltb_spec (length record) 5) as [Hlt | Hge].
    + apply (IH results Hload). intros r Hin. apply Hno. right. exact Hin.
    + destruct (record !! 0) as [r0|] eqn:H0; [|discriminate Hload].
      destruct (loadedRow record) as [row|]; [|discriminate Hload].
      rewrite (IH _ Hload); [|intros r Hin; apply Hno; right; exact Hin].
      apply lookup_insert_ne. intros ->. apply (Hno record); [left; reflexivity | exact Hge |].
      exact H0.
Qed.

Lemma loadRecords_last (pre post : list (list string)) (record : list string)
    (results loaded : gmap string MerchantResult) (k : string) :
  loadRecords (pre ++ record :: post) results = Some loaded ->
  6 <= length record ->
  record !! 0 = Some k ->
  (forall r, In r post -> 5 <= length r -> r !! 0 <> Some k) ->
  loaded !! k = loadedRow record.
Proof.
  intros Hload Hlen H0 Hpost. rewrite loadRecords_app in Hload.
  destruct (loadRecords pre results) as [mid|]; [|discriminate Hload].
  simpl in Hload. destruct (Nat.ltb_spec (length record) 5) as [Hlt | _]; [lia|].
  rewrite H0 in Hload.
  destruct (loadedRow record) as [row|]; [|discriminate Hload].
  rewrite (loadRecords_untouched post _ loaded k Hload Hpost).
  apply lookup_insert_eq.
Qed.

(** X11. When [LoadResults] returns without error, the cache is as it was,
    a name that no loaded record carries keeps its entry, and a name's
    entry is read off the last record of six or more fields that carries
    it: fields 0, 1, 2, 3 and 5 of that record, the rest zero. *)
Theorem LoadResults_last_record_wins (hdr : list string) (records : list (list string))
    (s s' : Server) (k : string) :
  LoadResults (inl (hdr :: records)) s = LoadOK s' ->
  cache s' = cache s
  /\ ((forall r, In r records -> 5 <= length r -> r !! 0 <> Some k) ->
      results s' !! k = results s !! k)
  /\ (forall pre record post,
        records = pre ++ record :: post ->
        6 <= length record ->
        record !! 0 = Some k ->
        (forall r, In r post -> 5 <= length r -> r !! 0 <> Some k) ->
        exists row,
          results s' !! k = Some row
          /\ Name row = k
          /\ record !! 1 = Some (ABNFound row)
          /\ record !! 2 = Some (ABNState row)
          /\ record !! 3 = Some (ABNLegalName row)
          /\ record !! 5 = Some (Verified row)
          /\ GoogleLegalName row = "" /\ GoogleState row = ""
          /\ GooglePostcode row = ""
          /\ ABNCount row = 0 /\ AllABNResults row = []).
Proof.
  unfold LoadResults.
  destruct (loadRecords records (results s)) as [loaded|] eqn:Hload; [|intros H; discriminate H].
  intros H. injection H as <-. simpl. split; [reflexivity|]. split.
  - intros Hno. exact (loadRecords_untouched records _ loaded k Hload Hno).
  - intros pre record post -> Hlen H0 Hpost.
    rewrite (loadRecords_last pre post record _ loaded k Hload Hlen H0 Hpost).
    destruct (loadedRow_long record Hlen)
      as (r0 & r1 & r2 & r3 & r5 & H0' & H1 & H2 & H3 & H5 & ->).
    eexists. split; [reflexivity|]. simpl.
    rewrite H0 in H0'. injection H0' as <-.
    repeat split; assumption.
Qed.

Lemma csvRow_length (Sprintf_2f : float -> string) (r : data.Result) :
  length (data.csvRow Sprintf_2f r) = 10.
Proof. reflexivity. Qed.

(** X12. The columns that [SaveToFile] writes are the ones [LoadResults]
    reads.  When reading the file back gives the records that were handed
    to the CSV writer, [LoadResults] returns without error or panic, and the
    entry of a merchant is its last saved row: name, ABN, state, legal name,
    and ["Yes"] or ["No"] for verified. *)
Theorem SaveToFile_LoadResults (Sprintf_2f : float -> string) (p : data.Processor)
    (s : Server) (readBack : list (list string)) (pre post : list data.Result)
    (r : data.Result) :
  readBack = data.csvRecords Sprintf_2f p ->
  data.rows p = pre ++ r :: post ->
  (forall r', In r' post -> data.MerchantName r' <> data.MerchantName r) ->
  exists s',
    LoadResults (inl readBack) s = LoadOK s'
    /\ results s' !! data.MerchantName r
       = Some {| Name := data.MerchantName r;
                 GoogleLegalName := ""; GoogleState := ""; GooglePostcode := "";
                 ABNFound := data.ABN r;
                 ABNLegalName := data.LegalName r;
                 ABNState := data.State r;
                 Verified := data.boolToYesNo (data.Verified r);
                 ABNCount := 0; AllABNResults := [] |}.
Proof.
  intros -> Hrows Hpost. unfold data.csvRecords, LoadResults.
  destruct (loadRecords (map (data.csvRow Sprintf_2f) (data.rows p)) (results s))
    as [loaded|] eqn:Hload.
  2:{ apply loadRecords_panic_iff in Hload. destruct Hload as (rec & Hin & Hlen).
      apply in_map_iff in Hin. destruct Hin as (r' & <- & _).
      rewrite csvRow_length in Hlen. discriminate Hlen. }
  eexists. split; [reflexivity|]. simpl.
  rewrite Hrows, map_app in Hload. simpl in Hload.
  rewrite (loadRecords_last _ _ (data.csvRow Sprintf_2f r) _ loaded (data.MerchantName r) Hload).
  - reflexivity.
  - rewrite csvRow_length. lia.
  - reflexivity.
  - intros rec Hin _. apply in_map_iff in Hin. destruct Hin as (r' & <- & Hin).
    simpl. intros He. injection He as He. exact (Hpost r' Hin He).
Qed.

End Loading.

(** ** The handlers *)

Section Handlers.

Import abr server.

Variable World : Type.
Variable registry_Get : string -> World -> (string + string) * World.
Variable xml_Unmarshal : string -> option ABRResponse.
Variable google_ExtractMerchantInfo : string -> World -> google.MerchantInfo * World.

Local Abbreviation handleMerchantAPI :=
  (server.handleMerchantAPI World registry_Get xml_Unmarshal google_ExtractMerchantInfo).
Local Abbreviation step :=
  (server.step World registry_Get xml_Unmarshal google_ExtractMerchantInfo).
Local Abbreviation run :=
  (server.run World registry_Get xml_Unmarshal google_ExtractMerchantInfo).

Lemma builtFrom_withABN (row : MerchantResult) (allResults : list Result) :
  builtFrom row (withABN row allResults).
Proof. repeat split. Qed.

Lemma builtFrom_withGoogle (row result : MerchantResult) (info : google.MerchantInfo) :
  builtFrom row result -> builtFrom row (withGoogle result info).
Proof. intros H. exact H. Qed.

Lemma consistent_step (i : nat) (σ : System World) :
  cacheConsistent (srv σ) ->
  Forall (threadConsistent (results (srv σ))) (threads σ) ->
  results (srv (step i σ)) = results (srv σ)
  /\ cacheConsistent (srv (step i σ))
  /\ Forall (threadConsistent (results (srv σ))) (threads (step i σ)).
Proof.
  intros Hcache Hall. unfold server.step.
  destruct (threads σ !! i) as [t|] eqn:Hi; [|repeat split; assumption].
  pose proof (Forall_lookup_1 _ _ _ _ Hall Hi) as Ht.
  destruct t as [path | m result | m result | m result | resp]; cbn [server.stepThread].
  - destruct (results (srv σ) !! merchantNameOf path) as [row|] eqn:Hrow.
    + destruct (cache (srv σ) !! merchantNameOf path) as [v|] eqn:Hc; cbn [srv threads].
      * split; [reflexivity|]. split; [exact Hcache|].
        apply Forall_insert; [exact Hall|]. simpl.
        destruct (Hcache _ _ Hc) as (row' & Hrow' & Hb). eauto.
      * split; [reflexivity|]. split; [exact Hcache|].
        apply Forall_insert; [exact Hall | exact Hrow].
    + cbn [srv threads]. split; [reflexivity|]. split; [exact Hcache|].
      apply Forall_insert; [exact Hall | exact I].
  - destruct (GetAllResults World registry_Get xml_Unmarshal m (net σ)) as [allResults n'].
    cbn [srv threads]. split; [reflexivity|]. split; [exact Hcache|].
    apply Forall_insert; [exact Hall|]. simpl in *. exists result.
    split; [exact Ht | apply builtFrom_withABN].
  - destruct (ExtractMerchantInfo World google_ExtractMerchantInfo m (net σ))
      as [googleInfo n'].
    cbn [srv threads]. split; [reflexivity|]. split; [exact Hcache|].
    apply Forall_insert; [exact Hall|]. simpl in *.
    destruct Ht as (row & Hrow & Hb). exists row.
    split; [exact Hrow | apply builtFrom_withGoogle, Hb].
  - cbn [srv threads]. simpl in Ht. destruct Ht as (row & Hrow & Hb).
    split; [reflexivity|]. split.
    + intros k v. unfold store, cacheConsistent. cbn [cache results].
      destruct (decide (m = k)) as [<- | Hne].
      * rewrite lookup_insert_eq. intros H. injection H as <-. eauto.
      * rewrite lookup_insert_ne by exact Hne. apply Hcache.
    + apply Forall_insert; [exact Hall|]. simpl. eauto.
  - cbn [srv threads]. split; [reflexivity|]. split; [exact Hcache|].
    rewrite (list_insert_id _ _ _ Hi). exact Hall.
Qed.

(** X13. Under every schedule of concurrent requests the results table is
    never written, and what is cached or sent comes from it: each cache
    entry, and each 200 body, carries the CSV fields of a row of the results
    and a count equal to the length of its list of ABN results. *)
Theorem run_keeps_cache_consistent (schedule : list nat) (σ : System World) :
  cacheConsistent (srv σ) ->
  Forall (threadConsistent (results (srv σ))) (threads σ) ->
  results (srv (run schedule σ)) = results (srv σ)
  /\ cacheConsistent (srv (run schedule σ))
  /\ Forall (threadConsistent (results (srv σ))) (threads (run schedule σ)).
Proof.
  revert σ. induction schedule as [|i schedule IH]; intros σ Hcache Hall; simpl.
  - repeat split; assumption.
  - destruct (consistent_step i σ Hcache Hall) as (Hres & Hcache' & Hall').
    rewrite <- Hres in Hall'.
    destruct (IH (step i σ) Hcache' Hall') as (Hres2 & Hcache2 & Hall2).
    rewrite Hres in Hres2, Hall2. repeat split; assumption.
Qed.

(** X14. A request served on its own never writes the results table and
    never evicts or overwrites a cache entry; it is answered 404 exactly when
    its name is not a row of the results, and after any other answer the
    name is cached. *)
Theorem handleMerchantAPI_grows_cache (s s' : Server) (path : string) (n n' : Net World)
    (resp : Response) :
  handleMerchantAPI s path n = (resp, s', n') ->
  results s' = results s
  /\ cache s ⊆ cache s'
  /\ (resp = NotFound <-> results s !! merchantNameOf path = None)
  /\ (resp <> NotFound -> is_Some (cache s' !! merchantNameOf path)).
Proof.
  intros H.
  destruct (results s !! merchantNameOf path) as [row|] eqn:Hrow.
  - destruct (cache s !! merchantNameOf path) as [v|] eqn:Hc.
    + rewrite (handle_hit _ _ _ _ s path n row v Hrow Hc) in H. injection H as <- <- <-.
      split; [reflexivity|]. split; [reflexivity|]. split.
      * split; intros H; discriminate H.
      * intros _. rewrite Hc. eexists. reflexivity.
    + destruct (handle_miss _ registry_Get xml_Unmarshal google_ExtractMerchantInfo
                  s path n row Hrow Hc) as (result & n1 & Heq & _).
      rewrite Heq in H. injection H as <- <- <-.
      split; [reflexivity|]. split; [apply insert_subseteq, Hc|]. split.
      * split; intros H; discriminate H.
      * intros _. unfold store. cbn [cache]. rewrite lookup_insert_eq. eexists. reflexivity.
  - rewrite (handle_unknown _ registry_Get xml_Unmarshal google_ExtractMerchantInfo
               s path n Hrow) in H.
    injection H as <- <- <-.
    split; [reflexivity|]. split; [reflexivity|]. split.
    + split; reflexivity.
    + intros H. contradiction.
Qed.

End Handlers.

Lemma HasPrefix_empty (s : string) : Strings.HasPrefix s "" = true.
Proof. destruct s; reflexivity. Qed.

Lemma Contains_empty (s : string) : Strings.Contains s "" = true.
Proof. destruct s; reflexivity. Qed.

(** ** The batch driver and its summary *)

Lemma slicePrefix_length (n : nat) (s : string) :
  String.length (data.slicePrefix n s) = Nat.min n (String.length s).
Proof.
  revert s. induction n as [|n IH]; intros s; [reflexivity|].
  destruct s as [|c s]; simpl; [reflexivity|]. rewrite IH. reflexivity.
Qed.

Lemma slicePrefix_prefix (n : nat) (s : string) :
  Strings.HasPrefix s (data.slicePrefix n s) = true.
Proof.
  revert s. induction n as [|n IH]; intros s; [destruct s; reflexivity|].
  destruct s as [|c s]; simpl; [reflexivity|].
  destruct (decide (c = c)) as [_ | Hne]; [apply IH | contradiction].
Qed.

Lemma append_length (a b : string) :
  String.length (String.append a b) = String.length a + String.length b.
Proof. induction a as [|c a IH]; simpl; [reflexivity|]. rewrite IH. reflexivity. Qed.

(** X16. [truncate] with a bound of at least 3 never returns more than the
    bound: a text within the bound is returned as it is, a longer one is cut
    to [maxLen-3] bytes followed by three dots, which makes exactly [maxLen]
    bytes.  With a bound below 3 a text longer than the bound makes the
    slice expression panic. *)
Theorem truncate_bound (s : string) (maxLen : Z) :
  (3 <= maxLen ->
   exists t,
     data.truncate s maxLen = Some t
     /\ Z.of_nat (String.length t) <= maxLen
     /\ (Z.of_nat (String.length s) <= maxLen -> t = s)
     /\ (maxLen < Z.of_nat (String.length s) ->
         Z.of_nat (String.length t) = maxLen
         /\ exists pre, t = String.append pre "..." /\ Strings.HasPrefix s pre = true))%Z
  /\ (maxLen < 3 -> maxLen < Z.of_nat (String.length s) ->
      data.truncate s maxLen = None)%Z.
Proof.
  unfold data.truncate. split.
  - intros H3. destruct (Z.leb_spec (Z.of_nat (String.length s)) maxLen) as [Hle | Hgt].
    + exists s. split; [reflexivity|]. split; [exact Hle|]. split; [reflexivity | lia].
    + destruct (Z.ltb_spec (maxLen - 3) 0) as [Hneg | _]; [lia|].
      eexists. split; [reflexivity|].
      rewrite append_length, slicePrefix_length. simpl String.length.
      split; [lia|]. split; [lia|]. intros _. split; [lia|].
      eexists. split; [reflexivity | apply slicePrefix_prefix].
  - intros H3 Hgt. destruct (Z.leb_spec (Z.of_nat (String.length s)) maxLen) as [Hle | _]; [lia|].
    destruct (Z.ltb_spec (maxLen - 3) 0) as [_ | Hge]; [reflexivity | lia].
Qed.

Lemma resultRow_driverRow (merchant : string) (looked : string * string * string * string) :
  cmd.driverRow (cmd.resultRow merchant looked)
  /\ data.MerchantName (cmd.resultRow merchant looked) = merchant.
Proof.
  destruct looked as [[[abn st] ln] sc]. unfold cmd.resultRow, cmd.driverRow.
  destruct (decide (abn = "")) as [-> | Hne]; simpl.
  - repeat split; try reflexivity; try (intros H; discriminate H).
    intros H. contradiction.
  - repeat split; try reflexivity; try (intros H; contradiction).
    intros _. exact Hne.
Qed.

Lemma summary_fold (rows : list data.Result) (found verified withAddress : nat) :
  Forall cmd.driverRow rows ->
  exists k,
    k <= length rows
    /\ fold_left
         (fun '(found, verified, withAddress) r =>
            (if decide (data.ABN r <> "") then S found else found,
             if data.Verified r then S verified else verified,
             if decide (data.Address r <> "") then S withAddress else withAddress))
         rows (found, verified, withAddress)
       = (found + k, verified + k, withAddress).
Proof.
  intros Hall. revert found verified withAddress.
  induction Hall as [|r rows (Hv & _ & Ha & _) _ IH]; intros found verified withAddress.
  - exists 0. split; [reflexivity|]. simpl. rewrite !Nat.add_0_r. reflexivity.
  - simpl. destruct (decide (data.Address r <> "")) as [Hne | _]; [contradiction|].
    destruct (decide (data.ABN r <> "")) as [Habn | Habn].
    + apply Hv in Habn. rewrite Habn.
      destruct (IH (S found) (S verified) withAddress) as (k & Hk & ->).
      exists (S k). split; [lia|].
      replace (found + S k) with (S found + k) by lia.
      replace (verified + S k) with (S verified + k) by lia. reflexivity.
    + destruct (data.Verified r) eqn:E.
      { exfalso. apply Habn, Hv. reflexivity. }
      destruct (IH found verified withAddress) as (k & Hk & ->).
      exists k. split; [lia | reflexivity].
Qed.

Section Driver.

Import abr.

Variable World : Type.
Variable Lookup : string -> IO World (string * string * string * string).

Local Abbreviation processMerchants := (cmd.processMerchants World Lookup).

Ltac run_io := unfold mbind, IO_bind, mret, IO_ret.

Lemma processMerchants_rows (merchants : list string) (p : data.Processor) (n : Net World) :
  exists added,
    data.rows (fst (processMerchants merchants p n)) = data.rows p ++ added
    /\ map data.MerchantName added = merchants
    /\ Forall cmd.driverRow added.
Proof.
  revert p n. induction merchants as [|merchant rest IH]; intros p n; simpl.
  - exists []. rewrite app_nil_r. repeat split. constructor.
  - run_io. destruct (Lookup merchant n) as [looked n1].
    destruct (IH (data.AddResult p (cmd.resultRow merchant looked)) n1)
      as (added & Hrows & Hnames & Hall).
    destruct (resultRow_driverRow merchant looked) as [Hrow Hname].
    exists (cmd.resultRow merchant looked :: added). split; [|split].
    + rewrite Hrows. simpl. rewrite <- app_assoc. reflexivity.
    + simpl. rewrite Hname, Hnames. reflexivity.
    + constructor; assumption.
Qed.

(** X17. The batch driver saves one row per merchant, in the order of the
    list, whatever the lookups return; a row is marked verified exactly when
    an ABN was found, and a row without ABN carries the merchant name as
    legal name.  So the summary counts as many verified rows as found ones,
    and no row with an address. *)
Theorem driver_rows_and_summary (merchants : list string) (outputFile : string)
    (n : Net World) :
  map data.MerchantName
    (data.rows (fst (processMerchants merchants (data.NewProcessor outputFile) n)))
  = merchants
  /\ Forall cmd.driverRow
       (data.rows (fst (processMerchants merchants (data.NewProcessor outputFile) n)))
  /\ exists found,
       found <= length merchants
       /\ data.summaryCounts
            (fst (processMerchants merchants (data.NewProcessor outputFile) n))
          = (found, found, 0).
Proof.
  destruct (processMerchants_rows merchants (data.NewProcessor outputFile) n)
    as (added & Hrows & Hnames & Hall).
  simpl in Hrows. rewrite Hrows. split; [exact Hnames|]. split; [exact Hall|].
  unfold data.summaryCounts. rewrite Hrows.
  destruct (summary_fold added 0 0 0 Hall) as (k & Hk & ->).
  exists k. split; [|reflexivity].
  rewrite <- Hnames, length_map. exact Hk.
Qed.

End Driver.

Section DriverSearches.

Import abr.

Variable World : Type.
Variable registry_Get : string -> World -> (string + string) * World.
Variable xml_Unmarshal : string -> option ABRResponse.
Variable Sscanf_f : string -> option float.

Local Abbreviation Lookup := (abr.Lookup World registry_Get xml_Unmarshal Sscanf_f).
Local Abbreviation processMerchants := (cmd.processMerchants World Lookup).

Ltac run_io := unfold mbind, IO_bind, mret, IO_ret.

(** X18. With the two-stage [Lookup] the batch driver searches the registry
    at least once and at most twice per merchant. *)
Theorem driver_search_count (merchants : list string) (p : data.Processor)
    (n : Net World) :
  exists searches,
    requests (snd (processMerchants merchants p n)) = requests n ++ searches
    /\ length merchants <= length searches <= 2 * length merchants.
Proof.
  revert p n. induction merchants as [|merchant rest IH]; intros p n; simpl.
  - exists []. rewrite app_nil_r. split; [reflexivity | simpl; lia].
  - run_io.
    pose proof (Lookup_outcome World registry_Get xml_Unmarshal Sscanf_f merchant n)
      as Hcount.
    destruct (Lookup merchant n) as [looked n1]. simpl in Hcount.
    destruct (IH (data.AddResult p (cmd.resultRow merchant looked)) n1)
      as (searches & Hreq & Hlen).
    destruct Hcount as [[_ H1] | (xml & n' & final & _ & _ & _ & _ & _ & H1)].
    + exists (merchant :: searches). rewrite Hreq, H1, <- app_assoc.
      split; [reflexivity | simpl; lia].
    + eexists (merchant :: _ :: searches). rewrite Hreq, H1, <- app_assoc.
      split; [reflexivity | simpl; lia].
Qed.

End DriverSearches.

(** ** Requests in sequence *)

Section Sequence.

Import abr server.

Variable World : Type.
Variable registry_Get : string -> World -> (string + string) * World.
Variable xml_Unmarshal : string -> option ABRResponse.
Variable google_ExtractMerchantInfo : string -> World -> google.MerchantInfo * World.

Local Abbreviation handleMerchantAPI :=
  (server.handleMerchantAPI World registry_Get xml_Unmarshal google_ExtractMerchantInfo).
Local Abbreviation serveAll :=
  (server.serveAll World registry_Get xml_Unmarshal google_ExtractMerchantInfo).

Ltac run_io := unfold mbind, IO_bind, mret, IO_ret.

Lemma serveAll_hits (N : nat) (s : Server) (path : string) (n : Net World)
    (row v : MerchantResult) :
  results s !! merchantNameOf path = Some row ->
  cache s !! merchantNameOf path = Some v ->
  serveAll (replicate N path) s n = (replicate N (OK v), s, n).
Proof.
  intros Hrow Hc. induction N as [|N IH]; [reflexivity|].
  simpl. run_io. rewrite (handle_hit _ _ _ _ s path n row v Hrow Hc).
  simpl. rewrite IH. reflexivity.
Qed.

(** X19. Any number of requests for one name, a row of the results that is
    not cached, served one after the other: the registry is searched once,
    by the first, and every request is answered with the same body. *)
Theorem sequential_requests_search_once (N : nat) (s : Server) (path : string)
    (n : Net World) (row : MerchantResult) :
  results s !! merchantNameOf path = Some row ->
  cache s !! merchantNameOf path = None ->
  exists result,
    fst (fst (serveAll (replicate (S N) path) s n)) = replicate (S N) (OK result)
    /\ requests (snd (serveAll (replicate (S N) path) s n))
       = requests n ++ [merchantNameOf path].
Proof.
  intros Hrow Hc.
  destruct (handle_miss _ registry_Get xml_Unmarshal google_ExtractMerchantInfo
              s path n row Hrow Hc) as (result & n1 & Heq & Hreq).
  exists result. simpl. run_io. rewrite Heq. simpl.
  rewrite (serveAll_hits N (store s (merchantNameOf path) result) path n1 row result).
  - split; [reflexivity | exact Hreq].
  - exact Hrow.
  - apply lookup_insert_eq.
Qed.

End Sequence.

(** ** The further properties on the small registry *)

Lemma getAllResults_fields_trimmed_witness :
  Strings.TrimSpace "50169260144" = "50169260144"
  /\ Strings.TrimSpace "NSW" = "NSW"
  /\ Strings.TrimSpace "Apple Pty Ltd" = "Apple Pty Ltd"
  /\ Strings.TrimSpace "95" = "95".
Proof.
  apply (getAllResults_fields_trimmed Demo.xml_Unmarshal "Apple"
           {| abr.ABN := "50169260144"; abr.State := "NSW";
              abr.LegalName := "Apple Pty Ltd"; abr.Score := "95" |}).
  vm_compute. left. reflexivity.
Defined.

Lemma findBestResult_input_normalized_witness :
  Demo.findBestResult "  APPLE " (Demo.getAllResults "Apple")
  = Demo.findBestResult "apple" (Demo.getAllResults "Apple").
Proof.
  apply (findBestResult_input_normalized Demo.Sscanf_f "  APPLE " "apple").
  reflexivity.
Defined.

Lemma blank_name_never_matches_witness :
  (forall results, Demo.findBestResult "  " results = abr.emptyResult)
  /\ (forall n,
        fst (Demo.Lookup "  " n) = Spec.noMatch
        /\ abr.requests (snd (Demo.Lookup "  " n)) = abr.requests n ++ ["  "]).
Proof.
  apply (blank_name_never_matches unit Demo.registry_Get Demo.xml_Unmarshal
           Demo.Sscanf_f "  ").
  reflexivity.
Defined.


Lemma VerifyABN_malformed_witness :
  abr.VerifyABN unit Demo.registry_Get Demo.xml_Unmarshal "50 169 260 144"
    "Apple Pty Ltd" "NSW" Demo.net0
  = (false, Demo.net0).
Proof.
  apply (VerifyABN_malformed unit Demo.registry_Get Demo.xml_Unmarshal).
  intros [Hlen _]. discriminate Hlen.
Defined.

Lemma LoadResults_last_record_wins_witness :
  exists s',
    server.LoadResults (inl Demo.csvFile) Demo.server0 = server.LoadOK s'
    /\ server.cache s' = server.cache Demo.server0
    /\ exists row,
         server.results s' !! "kmart" = Some row
         /\ server.Name row = "kmart"
         /\ server.ABNLegalName row = "kmart"
         /\ server.Verified row = "No".
Proof.
  eexists. split; [reflexivity|].
  destruct (LoadResults_last_record_wins data.header (tail Demo.csvFile) Demo.server0
              _ "kmart" eq_refl) as (Hcache & _ & Hlast).
  split; [exact Hcache|].
  destruct (Hlast [["Apple"; "50169260144"; "NSW"; "Apple Pty Ltd"; "95"; "Yes";
                    "100.00"; ""; ""; ""]]
              ["kmart"; ""; ""; "kmart"; ""; "No"; "0.00"; ""; ""; ""] [])
    as (row & Hrow & Hname & _ & _ & H3 & H5 & _).
  - reflexivity.
  - simpl. lia.
  - reflexivity.
  - intros r [].
  - exists row. split; [exact Hrow|]. split; [exact Hname|].
    simpl in H3, H5. injection H3 as H3. injection H5 as H5. split; congruence.
Defined.

Lemma SaveToFile_LoadResults_witness :
  exists s',
    server.LoadResults
      (inl [ data.header;
             ["Apple"; "50169260144"; "NSW"; "Apple Pty Ltd"; "95"; "Yes"; "100.00";
              ""; ""; ""] ])
      Demo.server2
    = server.LoadOK s'
    /\ server.results s' !! "Apple"
       = Some {| server.Name := "Apple";
                 server.GoogleLegalName := ""; server.GoogleState := "";
                 server.GooglePostcode := "";
                 server.ABNFound := "50169260144";
                 server.ABNLegalName := "Apple Pty Ltd";
                 server.ABNState := "NSW";
                 server.Verified := "Yes";
                 server.ABNCount := 0; server.AllABNResults := [] |}.
Proof.
  apply (SaveToFile_LoadResults Demo.Sprintf_2f
           (data.AddResult (data.NewProcessor "out.csv")
              (cmd.resultRow "Apple" ("50169260144", "NSW", "Apple Pty Ltd", "95")))
           Demo.server2 _ []
           []
           (cmd.resultRow "Apple" ("50169260144", "NSW", "Apple Pty Ltd", "95"))).
  - reflexivity.
  - reflexivity.
  - intros r' [].
Defined.

Lemma run_keeps_cache_consistent_witness :
  server.results
    (server.srv
       (Demo.runFlaky [0; 1; 0; 1; 0; 1; 0; 1]
          (server.arrive nat Demo.server0 Demo.flakyNet0 2 "/api/merchant/Apple")))
  = server.results Demo.server0
  /\ server.cacheConsistent
       (server.srv
          (Demo.runFlaky [0; 1; 0; 1; 0; 1; 0; 1]
             (server.arrive nat Demo.server0 Demo.flakyNet0 2 "/api/merchant/Apple")))
  /\ Forall (server.threadConsistent (server.results Demo.server0))
       (server.threads
          (Demo.runFlaky [0; 1; 0; 1; 0; 1; 0; 1]
             (server.arrive nat Demo.server0 Demo.flakyNet0 2 "/api/merchant/Apple"))).
Proof.
  apply (run_keeps_cache_consistent nat Demo.flaky_Get Demo.xml_Unmarshal
           Demo.google_ExtractMerchantInfo [0; 1; 0; 1; 0; 1; 0; 1]
           (server.arrive nat Demo.server0 Demo.flakyNet0 2 "/api/merchant/Apple")).
  - intros k v H. simpl in H. rewrite lookup_empty in H. discriminate H.
  - simpl. repeat constructor.
Defined.

Lemma handleMerchantAPI_grows_cache_witness :
  server.results
    (snd (fst (Demo.handleMerchantAPI Demo.server0 "/api/merchant/Apple" Demo.net0)))
  = server.results Demo.server0
  /\ server.cache Demo.server0
     ⊆ server.cache
         (snd (fst (Demo.handleMerchantAPI Demo.server0 "/api/merchant/Apple" Demo.net0)))
  /\ (fst (fst (Demo.handleMerchantAPI Demo.server0 "/api/merchant/Apple" Demo.net0))
      = server.NotFound
      <-> server.results Demo.server0 !! server.merchantNameOf "/api/merchant/Apple" = None)
  /\ (fst (fst (Demo.handleMerchantAPI Demo.server0 "/api/merchant/Apple" Demo.net0))
      <> server.NotFound ->
      is_Some
        (server.cache
           (snd (fst (Demo.handleMerchantAPI Demo.server0 "/api/merchant/Apple" Demo.net0)))
         !! server.merchantNameOf "/api/merchant/Apple")).
Proof.
  apply (handleMerchantAPI_grows_cache unit Demo.registry_Get Demo.xml_Unmarshal
           Demo.google_ExtractMerchantInfo Demo.server0 _ "/api/merchant/Apple"
           Demo.net0
           (snd (Demo.handleMerchantAPI Demo.server0 "/api/merchant/Apple" Demo.net0))).
  unfold Demo.handleMerchantAPI.
  destruct (server.handleMerchantAPI unit Demo.registry_Get Demo.xml_Unmarshal
              Demo.google_ExtractMerchantInfo Demo.server0 "/api/merchant/Apple" Demo.net0)
    as [[resp s'] n']. reflexivity.
Defined.

Lemma sequential_requests_search_once_witness :
  exists result,
    fst (fst (server.serveAll unit Demo.registry_Get Demo.xml_Unmarshal
                Demo.google_ExtractMerchantInfo
                (replicate 3 "/api/merchant/Apple") Demo.server0 Demo.net0))
    = replicate 3 (server.OK result)
    /\ abr.requests
         (snd (server.serveAll unit Demo.registry_Get Demo.xml_Unmarshal
                 Demo.google_ExtractMerchantInfo
                 (replicate 3 "/api/merchant/Apple") Demo.server0 Demo.net0))
       = abr.requests Demo.net0 ++ [server.merchantNameOf "/api/merchant/Apple"].
Proof.
  apply (sequential_requests_search_once unit Demo.registry_Get Demo.xml_Unmarshal
           Demo.google_ExtractMerchantInfo 2 Demo.server0 "/api/merchant/Apple"
           Demo.net0 Demo.appleRow).
  - reflexivity.
  - reflexivity.
Defined.

(** * The client over Go's own string functions *)

(** The ASCII client is the client at the functions of module [Strings]. *)
Lemma abr_instance (xml_Unmarshal : string -> option abr.ABRResponse)
    (Sscanf_f : string -> option float) :
  abr.getAllResults xml_Unmarshal = abrU.getAllResults Strings.TrimSpace xml_Unmarshal
  /\ abr.findBestResult Sscanf_f
     = abrU.findBestResult Strings.TrimSpace Strings.ToLower Strings.Fields Sscanf_f.
Proof. split; reflexivity. Qed.

Section ClientU.

Import abr.

Variable TrimSpace : string -> string.
Variable ToLower : string -> string.
Variable Fields : string -> list string.

Variable World : Type.
Variable registry_Get : string -> World -> (string + string) * World.
Variable xml_Unmarshal : string -> option ABRResponse.
Variable Sscanf_f : string -> option float.

Local Abbreviation searchByName := (abr.searchByName World registry_Get).
Local Abbreviation toResult := (abrU.toResult TrimSpace).
Local Abbreviation getAllResults := (abrU.getAllResults TrimSpace xml_Unmarshal).
Local Abbreviation scoreCandidate := (abrU.scoreCandidate TrimSpace ToLower Fields Sscanf_f).
Local Abbreviation scoreCandidates :=
  (abrU.scoreCandidates TrimSpace ToLower Fields Sscanf_f).
Local Abbreviation findBestResult := (abrU.findBestResult TrimSpace ToLower Fields Sscanf_f).
Local Abbreviation Lookup :=
  (abrU.Lookup TrimSpace ToLower Fields World registry_Get xml_Unmarshal Sscanf_f).
Local Abbreviation accepted := (SpecU.accepted TrimSpace).
Local Abbreviation normalize := (SpecU.normalize TrimSpace ToLower).
Local Abbreviation commonWords := (SpecU.commonWords TrimSpace ToLower Fields).
Local Abbreviation hasKeyword := (SpecU.hasKeyword ToLower).
Local Abbreviation entityTypeGate := (SpecU.entityTypeGate ToLower).
Local Abbreviation passesGates := (SpecU.passesGates TrimSpace ToLower Fields).
Local Abbreviation compositeScore := (SpecU.compositeScore TrimSpace ToLower Fields).

Local Abbreviation trimIdempotent := (SpecU.trimIdempotent TrimSpace).
Local Abbreviation lowerOfEmpty := (SpecU.lowerOfEmpty ToLower).
Local Abbreviation trimmed := (SpecU.trimmed TrimSpace).

Ltac run_io := unfold mbind, IO_bind, mret, IO_ret.

Lemma extraction_loopU (recs : list SearchResultsRecord) (acc : list Result) :
  fold_left
    (fun results rec =>
       let abn := TrimSpace (IdentifierValue rec) in
       let status := TrimSpace (IdentifierStatus rec) in
       if negb (Regexp.MatchString abnRegex abn)
          || negb (bool_decide (status = "Active"))
       then results
       else results ++ [toResult rec])
    recs acc
  = acc ++ map toResult (filter accepted recs).
Proof.
  revert acc. induction recs as [|rec recs IH]; intros acc; simpl.
  - rewrite app_nil_r. reflexivity.
  - rewrite IH. rewrite filter_cons.
    destruct (decide (accepted rec)) as [[Hid Hst] | Hno].
    + apply abnRegex_spec in Hid. rewrite Hid.
      rewrite (bool_decide_eq_true_2 _ Hst). simpl.
      rewrite <- app_assoc. reflexivity.
    + destruct (Regexp.MatchString abnRegex (TrimSpace (IdentifierValue rec))) eqn:Hm;
        simpl; [|reflexivity].
      destruct (bool_decide_reflect (TrimSpace (IdentifierStatus rec) = "Active"))
        as [Hst | Hst]; simpl; [|reflexivity].
      exfalso. apply Hno. split; [apply abnRegex_spec; exact Hm | exact Hst].
Qed.

Lemma getAllResultsU_from_record (xmlText : string) (c : Result) :
  In c (getAllResults xmlText) -> exists rec, accepted rec /\ c = toResult rec.
Proof.
  unfold abrU.getAllResults.
  destruct (decide (xmlText = "")) as [He | Hne]; [intros []|].
  destruct (xml_Unmarshal xmlText) as [response|]; [|intros []].
  rewrite extraction_loopU. simpl. intros Hin.
  apply in_map_iff in Hin. destruct Hin as (rec & <- & Hin).
  apply list_elem_of_In, list_elem_of_filter in Hin. destruct Hin as [Hacc _].
  exists rec. split; [exact Hacc | reflexivity].
Qed.

(** C3. Whatever white space Go's [TrimSpace] trims, the extractor keeps
    exactly the records whose trimmed identifier is eleven ASCII digits and
    whose trimmed status is ["Active"], in the order of the response; so
    every candidate carries an eleven-digit identifier and comes from a
    record with the active status. *)
Theorem getAllResults_keeps_accepted_records (xmlText : string) (response : ABRResponse) :
  xmlText <> "" ->
  xml_Unmarshal xmlText = Some response ->
  getAllResults xmlText = map toResult (filter accepted (Records response))
  /\ (forall c, In c (getAllResults xmlText) ->
        Spec.isABN (ABN c)
        /\ exists rec, In rec (Records response) /\ c = toResult rec
             /\ TrimSpace (IdentifierStatus rec) = "Active").
Proof.
  intros Hne Hdec.
  assert (getAllResults xmlText = map toResult (filter accepted (Records response))) as Heq.
  { unfold abrU.getAllResults.
    destruct (decide (xmlText = "")) as [He | _]; [contradiction|].
    rewrite Hdec. apply extraction_loopU. }
  split; [exact Heq|]. rewrite Heq.
  intros c Hin. apply in_map_iff in Hin. destruct Hin as (rec & <- & Hin).
  apply list_elem_of_In, list_elem_of_filter in Hin. destruct Hin as [[Hid Hst] Hin].
  split; [exact Hid|]. exists rec. rewrite list_elem_of_In in Hin. auto.
Qed.

Lemma toResultU_trimmed (rec : SearchResultsRecord) :
  trimIdempotent -> trimmed (toResult rec).
Proof.
  intros Hidem. unfold SpecU.trimmed, abrU.toResult. simpl.
  repeat match goal with |- context [decide ?P] => destruct (decide P) end;
    apply Hidem.
Qed.

Lemma getAllResultsU_trimmed (xmlText : string) (c : Result) :
  trimIdempotent -> In c (getAllResults xmlText) -> trimmed c.
Proof.
  intros Hidem Hin. destruct (getAllResultsU_from_record xmlText c Hin) as (rec & _ & ->).
  apply toResultU_trimmed, Hidem.
Qed.

(** One round of the scoring loop on a trimmed legal name, with the word
    sets and the normalization of the specification. *)
Lemma scoreCandidateU_gated (businessName : string) (c : Result) :
  trimmed c ->
  scoreCandidate businessName c =
  let common := commonWords businessName (LegalName c) in
  let nameLower := ToLower (LegalName c) in
  if negb (containsAny nameLower companyKeywords) then None
  else if (size common =? 0)%nat then None
  else if containsAny nameLower unrelatedKeywords && (size common <? 2)%nat then None
  else Some
    ((if decide (normalize businessName = normalize (LegalName c)) then 1000 else 0)
     + (if Strings.Contains (normalize businessName) (normalize (LegalName c))
           || Strings.Contains (normalize (LegalName c)) (normalize businessName)
        then 500 else 0)
     + PrimFloat.of_uint63 (Uint63.of_nat (size common)) * 100
     + Spec.registryMatchScore Sscanf_f c)%float.
Proof.
  intros Htrim. unfold abrU.scoreCandidate. cbv zeta.
  rewrite intersection_spec, !stringToSet_spec.
  unfold SpecU.commonWords, SpecU.tokenize, SpecU.normalize.
  unfold SpecU.trimmed in Htrim. rewrite !Htrim. reflexivity.
Qed.

Lemma containsAnyU_spec (legalName : string) (keywords : list string) :
  containsAny (ToLower legalName) keywords = true <-> hasKeyword legalName keywords.
Proof. unfold containsAny, SpecU.hasKeyword. apply existsb_exists. Qed.

Lemma scoreCandidateU_passes (businessName : string) (c : Result) :
  trimmed c ->
  (is_Some (scoreCandidate businessName c) <-> passesGates businessName c).
Proof.
  intros Htrim. rewrite (scoreCandidateU_gated businessName c Htrim). cbv zeta.
  unfold SpecU.passesGates, SpecU.entityTypeGate, SpecU.lexicalOverlapGate, SpecU.noiseGate.
  rewrite <- !containsAnyU_spec.
  destruct (containsAny (ToLower (LegalName c)) companyKeywords); cbn [negb].
  2:{ split; [intros H; destruct (is_Some_None H) | intros [H _]; discriminate H]. }
  destruct (Nat.eqb_spec (size (commonWords businessName (LegalName c))) 0) as [Hz | Hnz].
  { split; [intros H; destruct (is_Some_None H)|].
    intros (_ & Hne & _). exfalso. apply Hne.
    apply leibniz_equiv, size_empty_iff. exact Hz. }
  assert (commonWords businessName (LegalName c) <> ∅) as Hne.
  { intros He. apply Hnz. rewrite He. apply size_empty. }
  destruct (containsAny (ToLower (LegalName c)) unrelatedKeywords); cbn [andb].
  - destruct (Nat.ltb_spec (size (commonWords businessName (LegalName c))) 2) as [Hlt | Hge].
    + split; [intros H; destruct (is_Some_None H)|].
      intros (_ & _ & Hnoise). exfalso. apply Hnoise. split; [reflexivity | exact Hlt].
    + split; [|intros _; eexists; reflexivity].
      intros _. split; [reflexivity|]. split; [exact Hne|]. intros [_ Hlt]. lia.
  - split; [|intros _; eexists; reflexivity].
    intros _. split; [reflexivity|]. split; [exact Hne|]. intros [H _]. discriminate H.
Qed.

Lemma scoring_loopU (businessName : string) (results : list Result)
    (acc : list (float * Result)) :
  fold_left
    (fun scoredResults result =>
       match scoreCandidate businessName result with
       | None => scoredResults
       | Some totalScore => scoredResults ++ [(totalScore, result)]
       end)
    results acc
  = acc ++ omap (fun r => (fun s => (s, r)) <$> scoreCandidate businessName r) results.
Proof.
  revert acc. induction results as [|r results IH]; intros acc; simpl.
  - rewrite app_nil_r. reflexivity.
  - rewrite IH. destruct (scoreCandidate businessName r); simpl; [|reflexivity].
    rewrite <- app_assoc. reflexivity.
Qed.

Lemma scoreCandidatesU_In (businessName : string) (results : list Result)
    (s : float) (c : Result) :
  In (s, c) (scoreCandidates businessName results)
  <-> In c results /\ scoreCandidate businessName c = Some s.
Proof.
  unfold abrU.scoreCandidates. rewrite scoring_loopU. simpl.
  rewrite <- list_elem_of_In, list_elem_of_omap. split.
  - intros (r & Hr & Hs). destruct (scoreCandidate businessName r) as [s'|] eqn:E;
      simpl in Hs; [|discriminate Hs].
    injection Hs as -> ->. split; [apply list_elem_of_In; exact Hr | exact E].
  - intros [Hin Hs]. exists c. split; [apply list_elem_of_In; exact Hin|].
    rewrite Hs. reflexivity.
Qed.

(** C6. A candidate, with its legal name trimmed as the extractor leaves
    it, is scored exactly when it passes the three gates: a company keyword
    in its lower-cased legal name, a word in common with the input, and not
    both a deny-list keyword and fewer than two common words.  Go's
    [TrimSpace] being idempotent, the candidates of the extractor are such,
    and the scored ones are those that pass. *)
Theorem scored_exactly_when_gates_pass (businessName : string) :
  (forall c, trimmed c ->
     (is_Some (scoreCandidate businessName c) <-> passesGates businessName c))
  /\ (trimIdempotent ->
      forall xmlText c,
        In c (map snd (scoreCandidates businessName (getAllResults xmlText)))
        <-> In c (getAllResults xmlText) /\ passesGates businessName c).
Proof.
  split; [intros c; apply scoreCandidateU_passes|].
  intros Hidem xmlText c. rewrite in_map_iff. split.
  - intros ([s c'] & Hc & Hin). simpl in Hc. subst c'.
    apply scoreCandidatesU_In in Hin. destruct Hin as [Hin Hs].
    split; [exact Hin|].
    apply (scoreCandidateU_passes businessName c (getAllResultsU_trimmed _ _ Hidem Hin)).
    rewrite Hs. eexists. reflexivity.
  - intros [Hin Hpass].
    apply (scoreCandidateU_passes businessName c (getAllResultsU_trimmed _ _ Hidem Hin))
      in Hpass.
    destruct Hpass as [s Hs]. exists (s, c). split; [reflexivity|].
    apply scoreCandidatesU_In. split; assumption.
Qed.

(** C4. A candidate that passes the gates, with its legal name trimmed as
    the extractor leaves it, is scored
    [exactMatchBonus + containsBonus + 100 * |commonWords| + registryMatchScore],
    the names normalized by Go's own lower-casing and trimming.  Go's
    [TrimSpace] being idempotent, so is every scored candidate of the
    extractor. *)
Theorem composite_score (businessName : string) :
  (forall s c, trimmed c ->
     scoreCandidate businessName c = Some s ->
     passesGates businessName c /\ s = compositeScore Sscanf_f businessName c)
  /\ (trimIdempotent ->
      forall xmlText s c,
        In (s, c) (scoreCandidates businessName (getAllResults xmlText)) ->
        passesGates businessName c /\ s = compositeScore Sscanf_f businessName c).
Proof.
  assert (forall s c, trimmed c ->
            scoreCandidate businessName c = Some s ->
            passesGates businessName c /\ s = compositeScore Sscanf_f businessName c)
    as Hscore.
  { intros s c Htrim Hs.
    split; [apply (scoreCandidateU_passes businessName c Htrim); rewrite Hs;
            eexists; reflexivity|].
    rewrite (scoreCandidateU_gated businessName c Htrim) in Hs. cbv zeta in Hs.
    repeat match type of Hs with
           | (if ?b then None else _) = Some _ => destruct b; [discriminate Hs|]
           end.
    injection Hs as <-.
    unfold SpecU.compositeScore, SpecU.exactMatchBonus, SpecU.containsBonus.
    rewrite (float_mul_comm 100). reflexivity. }
  split; [exact Hscore|].
  intros Hidem xmlText s c Hin. apply scoreCandidatesU_In in Hin. destruct Hin as [Hin Hs].
  exact (Hscore s c (getAllResultsU_trimmed _ _ Hidem Hin) Hs).
Qed.

Lemma findBestResultU_scored (businessName : string) (results : list Result) :
  findBestResult businessName results = emptyResult
  \/ exists s, In (s, findBestResult businessName results)
                 (scoreCandidates businessName results).
Proof.
  unfold abrU.findBestResult. destruct (length results =? 0)%nat; [left; reflexivity|].
  destruct (scoreCandidates businessName results) as [|first rest]; [left; reflexivity|].
  right. pose proof (maxStep_fold_In rest first) as Hin.
  destruct (fold_left maxStep rest first) as [s c]. exists s. exact Hin.
Qed.

(** A scored result has a company keyword in its lower-cased legal name. *)
Lemma scoreCandidateU_company (businessName : string) (c : Result) (s : float) :
  scoreCandidate businessName c = Some s -> entityTypeGate c.
Proof.
  unfold abrU.scoreCandidate. cbv zeta. intros Hs.
  destruct (containsAny (ToLower (LegalName c)) companyKeywords) eqn:E;
    [|discriminate Hs].
  apply containsAnyU_spec. exact E.
Qed.

Lemma entityTypeGateU_nonempty (c : Result) :
  lowerOfEmpty -> entityTypeGate c -> LegalName c <> "".
Proof.
  intros Hlow (keyword & Hin & Hc) He.
  apply (Contains_nonempty _ _ Hc (companyKeyword_nonempty keyword Hin)).
  rewrite He. exact Hlow.
Qed.

Lemma scoreCandidatesU_empty_iff (businessName : string) (results : list Result) :
  scoreCandidates businessName results = []
  <-> forall c, In c results -> scoreCandidate businessName c = None.
Proof.
  split.
  - intros He c Hin. destruct (scoreCandidate businessName c) as [s|] eqn:Hs; [|reflexivity].
    assert (In (s, c) (scoreCandidates businessName results)) as H
      by (apply scoreCandidatesU_In; split; assumption).
    rewrite He in H. destruct H.
  - intros Hno. destruct (scoreCandidates businessName results) as [|[s c] rest] eqn:E;
      [reflexivity|].
    assert (In (s, c) (scoreCandidates businessName results)) as H
      by (rewrite E; left; reflexivity).
    apply scoreCandidatesU_In in H. destruct H as [Hin Hs].
    rewrite (Hno c Hin) in Hs. discriminate Hs.
Qed.

(** X2. On results with trimmed legal names, as the extractor gives them,
    [findBestResult] returns [Result{}] exactly when no result passes the
    three gates. *)
Theorem no_match_exactly_when_no_result_passes (businessName : string)
    (results : list Result) :
  lowerOfEmpty ->
  (forall c, In c results -> trimmed c) ->
  (findBestResult businessName results = emptyResult
   <-> forall c, In c results -> ~ passesGates businessName c).
Proof.
  intros Hlow Htrim. split.
  - intros He c Hin Hpass.
    apply (scoreCandidateU_passes businessName c (Htrim c Hin)) in Hpass.
    destruct Hpass as [s Hs].
    destruct (scoreCandidates businessName results) as [|first rest] eqn:E.
    + rewrite (proj1 (scoreCandidatesU_empty_iff businessName results) E c Hin) in Hs.
      discriminate Hs.
    + unfold abrU.findBestResult in He.
      destruct results as [|r results]; [destruct Hin|].
      simpl length in He. cbn [Nat.eqb] in He. rewrite E in He.
      pose proof (maxStep_fold_In rest first) as Hbest. rewrite <- E in Hbest.
      destruct (fold_left maxStep rest first) as [s' c']. simpl in He. subst c'.
      apply scoreCandidatesU_In in Hbest. destruct Hbest as [_ Hs'].
      apply (entityTypeGateU_nonempty emptyResult Hlow (scoreCandidateU_company _ _ _ Hs')).
      reflexivity.
  - intros Hno. unfold abrU.findBestResult.
    rewrite (proj2 (scoreCandidatesU_empty_iff businessName results)).
    + destruct (length results =? 0)%nat; reflexivity.
    + intros c Hin. destruct (scoreCandidate businessName c) as [s|] eqn:Hs; [|reflexivity].
      exfalso. apply (Hno c Hin).
      apply (scoreCandidateU_passes businessName c (Htrim c Hin)). rewrite Hs.
      eexists. reflexivity.
Qed.

Lemma LookupU_verified (businessName xmlResponse : string) (n n1 n2 : Net World)
    (r2 : string + string) :
  searchByName businessName n = (inl xmlResponse, n1) ->
  ABN (findBestResult businessName (getAllResults xmlResponse)) <> "" ->
  LegalName (findBestResult businessName (getAllResults xmlResponse)) <> "" ->
  searchByName (LegalName (findBestResult businessName (getAllResults xmlResponse))) n1
    = (r2, n2) ->
  Lookup businessName n
  = (returned
       match r2 with
       | inl xmlResponse2 =>
           scanForABN (getAllResults xmlResponse2)
             (findBestResult businessName (getAllResults xmlResponse))
       | inr _ => findBestResult businessName (getAllResults xmlResponse)
       end, n2).
Proof.
  intros H Habn Hname H2. unfold abrU.Lookup. run_io. rewrite H.
  destruct (decide (ABN (findBestResult businessName (getAllResults xmlResponse)) = ""))
    as [He | _]; [contradiction|].
  destruct (decide (LegalName (findBestResult businessName (getAllResults xmlResponse)) = ""))
    as [He | _]; [contradiction|].
  rewrite H2. destruct r2; reflexivity.
Qed.

(** C10. A candidate that [findBestResult] returns, other than [Result{}],
    has a company keyword in its lower-cased legal name, which is therefore
    not empty; so when the first stage of [Lookup] selects a candidate the
    second search is always made, for that legal name. *)
Theorem ranked_candidate_is_company (businessName : string) (results : list Result) :
  lowerOfEmpty ->
  (findBestResult businessName results <> emptyResult ->
     entityTypeGate (findBestResult businessName results)
     /\ LegalName (findBestResult businessName results) <> "")
  /\ (forall xmlResponse n n1,
        results = getAllResults xmlResponse ->
        searchByName businessName n = (inl xmlResponse, n1) ->
        ABN (findBestResult businessName results) <> "" ->
        LegalName (findBestResult businessName results) <> ""
        /\ requests (snd (Lookup businessName n))
           = requests n ++ [businessName; LegalName (findBestResult businessName results)]).
Proof.
  intros Hlow.
  assert (findBestResult businessName results <> emptyResult ->
          entityTypeGate (findBestResult businessName results)
          /\ LegalName (findBestResult businessName results) <> "") as Hcompany.
  { intros Hne. destruct (findBestResultU_scored businessName results) as [He | [s Hin]];
      [contradiction|].
    apply scoreCandidatesU_In in Hin. destruct Hin as [_ Hs].
    pose proof (scoreCandidateU_company _ _ _ Hs) as Hg.
    split; [exact Hg | exact (entityTypeGateU_nonempty _ Hlow Hg)]. }
  split; [exact Hcompany|].
  intros xmlResponse n n1 -> H1 Habn.
  destruct Hcompany as [_ Hname].
  { intros He. apply Habn. rewrite He. reflexivity. }
  split; [exact Hname|].
  destruct (searchByName
              (LegalName (findBestResult businessName (getAllResults xmlResponse))) n1)
    as [r2 n2] eqn:H2.
  rewrite (LookupU_verified _ _ _ _ _ _ H1 Habn Hname H2). simpl.
  rewrite (searchByName_requests _ _ _ _ _ _ H2), (searchByName_requests _ _ _ _ _ _ H1).
  rewrite <- app_assoc. reflexivity.
Qed.

End ClientU.

Lemma getAllResults_keeps_accepted_records_witness :
  abrU.getAllResults Strings.TrimSpace Demo.xml_Unmarshal "Apple"
  = map (abrU.toResult Strings.TrimSpace)
      (filter (SpecU.accepted Strings.TrimSpace) (abr.Records Demo.appleResponse))
  /\ (forall c, In c (abrU.getAllResults Strings.TrimSpace Demo.xml_Unmarshal "Apple") ->
        Spec.isABN (abr.ABN c)
        /\ exists rec, In rec (abr.Records Demo.appleResponse)
             /\ c = abrU.toResult Strings.TrimSpace rec
             /\ Strings.TrimSpace (abr.IdentifierStatus rec) = "Active").
Proof.
  apply (getAllResults_keeps_accepted_records Strings.TrimSpace Demo.xml_Unmarshal
           "Apple" Demo.appleResponse).
  - discriminate.
  - reflexivity.
Defined.

Lemma scored_exactly_when_gates_pass_witness :
  In {| abr.ABN := "50169260144"; abr.State := "NSW";
        abr.LegalName := "Apple Pty Ltd"; abr.Score := "95" |}
     (abrU.getAllResults Strings.TrimSpace Demo.xml_Unmarshal "Apple")
  /\ SpecU.passesGates Strings.TrimSpace Strings.ToLower Strings.Fields "Apple"
       {| abr.ABN := "50169260144"; abr.State := "NSW";
          abr.LegalName := "Apple Pty Ltd"; abr.Score := "95" |}.
Proof.
  apply (proj1 (proj2 (scored_exactly_when_gates_pass Strings.TrimSpace Strings.ToLower
                         Strings.Fields Demo.xml_Unmarshal Demo.Sscanf_f "Apple")
                  TrimSpace_idem "Apple"
                  {| abr.ABN := "50169260144"; abr.State := "NSW";
                     abr.LegalName := "Apple Pty Ltd"; abr.Score := "95" |})).
  vm_compute. left. reflexivity.
Defined.

Lemma composite_score_witness :
  SpecU.passesGates Strings.TrimSpace Strings.ToLower Strings.Fields
    "Acme Cleaning Services"
    {| abr.ABN := "33333333333"; abr.State := "VIC";
       abr.LegalName := "Acme Cleaning Pty Ltd"; abr.Score := "80" |}
  /\ 280%float
     = SpecU.compositeScore Strings.TrimSpace Strings.ToLower Strings.Fields
         Demo.Sscanf_f "Acme Cleaning Services"
         {| abr.ABN := "33333333333"; abr.State := "VIC";
            abr.LegalName := "Acme Cleaning Pty Ltd"; abr.Score := "80" |}.
Proof.
  apply (proj2 (composite_score Strings.TrimSpace Strings.ToLower Strings.Fields
                  Demo.xml_Unmarshal Demo.Sscanf_f "Acme Cleaning Services")
           TrimSpace_idem "Acme Cleaning Services").
  vm_compute. right. left. reflexivity.
Defined.

Lemma no_match_exactly_when_no_result_passes_witness :
  abrU.findBestResult Strings.TrimSpace Strings.ToLower Strings.Fields Demo.Sscanf_f
    "kmart"
    [ {| abr.ABN := "50169260144"; abr.State := "NSW";
         abr.LegalName := "Apple Pty Ltd"; abr.Score := "95" |} ]
  = abr.emptyResult
  <-> (forall c,
         In c [ {| abr.ABN := "50169260144"; abr.State := "NSW";
                   abr.LegalName := "Apple Pty Ltd"; abr.Score := "95" |} ] ->
         ~ SpecU.passesGates Strings.TrimSpace Strings.ToLower Strings.Fields "kmart" c).
Proof.
  apply (no_match_exactly_when_no_result_passes Strings.TrimSpace Strings.ToLower
           Strings.Fields Demo.Sscanf_f "kmart").
  - reflexivity.
  - intros c [<- | []]. reflexivity.
Defined.

Lemma ranked_candidate_is_company_witness :
  (SpecU.entityTypeGate Strings.ToLower
     (abrU.findBestResult Strings.TrimSpace Strings.ToLower Strings.Fields Demo.Sscanf_f
        "Apple" (abrU.getAllResults Strings.TrimSpace Demo.xml_Unmarshal "Apple"))
   /\ abr.LegalName
        (abrU.findBestResult Strings.TrimSpace Strings.ToLower Strings.Fields
           Demo.Sscanf_f "Apple"
           (abrU.getAllResults Strings.TrimSpace Demo.xml_Unmarshal "Apple")) <> "")
  /\ abr.requests
       (snd (abrU.Lookup Strings.TrimSpace Strings.ToLower Strings.Fields unit
               Demo.registry_Get Demo.xml_Unmarshal Demo.Sscanf_f "Apple" Demo.net0))
     = ["Apple"; "Apple Pty Ltd"].
Proof.
  destruct (ranked_candidate_is_company Strings.TrimSpace Strings.ToLower Strings.Fields
              unit Demo.registry_Get Demo.xml_Unmarshal Demo.Sscanf_f "Apple"
              (abrU.getAllResults Strings.TrimSpace Demo.xml_Unmarshal "Apple")
              eq_refl) as [Hcompany Hverify].
  split.
  - apply Hcompany. vm_compute. discriminate.
  - destruct (Hverify "Apple" Demo.net0 {| abr.world := tt; abr.requests := ["Apple"] |})
      as [_ Hreq].
    + reflexivity.
    + reflexivity.
    + vm_compute. discriminate.
    + exact Hreq.
Defined.

(** * The search handler over Go's own lower-casing *)

Section SearchU.

Import server.

Variable ToLower : string -> string.

Local Abbreviation handleSearchAPI := (serverU.handleSearchAPI ToLower).

(** X15. The search handler returns the loaded rows whose lower-cased name
    contains the lower-cased query, whatever letters Go's [ToLower] folds;
    the query ["*"] returns every row, and so does the empty query, the
    empty string being lower-cased to itself. *)
Theorem handleSearchAPI_rows (s : Server) (query : string) :
  (forall r, In r (handleSearchAPI s query)
     <-> (exists k, results s !! k = Some r)
         /\ (query = "*"
             \/ Strings.Contains (ToLower (Name r)) (ToLower query) = true))
  /\ (query = "*" -> handleSearchAPI s query = map snd (map_to_list (results s)))
  /\ (SpecU.lowerOfEmpty ToLower ->
      handleSearchAPI s "" = map snd (map_to_list (results s))).
Proof.
  unfold serverU.handleSearchAPI. split; [|split].
  - intros r. rewrite filter_In, in_map_iff. unfold serverU.matchesQuery.
    rewrite orb_true_iff, bool_decide_eq_true. split.
    + intros [([k r'] & Hr & Hin) Hq]. simpl in Hr. subst r'. split; [|exact Hq].
      exists k. apply elem_of_map_to_list, list_elem_of_In. exact Hin.
    + intros [[k Hk] Hq]. split; [|exact Hq]. exists (k, r). split; [reflexivity|].
      apply list_elem_of_In, elem_of_map_to_list. exact Hk.
  - intros ->. apply forallb_filter_id, forallb_forall. intros r _. reflexivity.
  - intros Hlow. apply forallb_filter_id, forallb_forall. intros r _.
    unfold serverU.matchesQuery. rewrite Hlow. simpl. apply Contains_empty.
Qed.

End SearchU.

Lemma handleSearchAPI_rows_witness :
  serverU.handleSearchAPI Strings.ToLower Demo.server2 ""
  = map snd (map_to_list (server.results Demo.server2)).
Proof.
  apply (proj2 (proj2 (handleSearchAPI_rows Strings.ToLower Demo.server2 ""))).
  reflexivity.
Defined.
